(** * battery-stat: data preparation, gap compression, window and trend

    A shallow embedding of [battery-stat.py], the script that plots the
    charge history written by upower.  The embedding follows the script
    from top to bottom:

    - data preparation (lines 68-82): [splitlines], [split_tab], [load];
    - the compressed timeline (lines 85-93): [MAX_GAP], [timeline_zipped];
    - [BatteryStat.format] (lines 231-278): the window and its samples;
    - [BatteryStat.analyze] (lines 280-320): the statistics of the window;
    - [BatteryStat.update] (lines 353-383) and [BatteryStat.reset] (lines
      385-387): the slider and switch handler, the reset button;
    - the choice of the data file (lines 27-66).

    Numbers.  A Python [int] is a [Z].  A Python [float] is modelled by the
    rational it denotes, a [Q]: sums, differences, products and quotients
    are exact, and a division whose divisor is zero raises
    [ZeroDivisionError] as Python's does.  The rounding of floats,
    infinities and NaN are outside this model.  A [timedelta] keeps its
    resolution: [timedelta(hours=h).total_seconds()] is [h * 3600] rounded
    to a whole number of microseconds, half to even.  On the timeline the
    model is exact for the script's data: Unix times are integers far below
    2^53, and the threshold [.2 * 3600.0] is the float 720.0, so every sum
    and difference of the loop is an integer that binary64 holds exactly.

    Exceptions are values of [exn]; a computation that may raise returns a
    [result].  Drawing on the axes (titles, ticks, scatter) is not modelled:
    the functions below return what the script computes before it draws. *)

From Stdlib Require Import List ZArith QArith Qabs Qround String Ascii Bool.
From Stdlib Require Import Lia Lqa.
Import ListNotations.

(* ================================================================== *)
(** * Exceptions *)

Inductive exn : Type :=
| IndexError
| ValueError
| ZeroDivisionError
| RecursionError
| EOFError.

Inductive result (A : Type) : Type :=
| Ok (a : A)
| Err (e : exn).

Arguments Ok {A} a.
Arguments Err {A} e.

Definition bind {A B : Type} (r : result A) (k : A -> result B) : result B :=
  match r with
  | Ok a => k a
  | Err e => Err e
  end.

Declare Scope py_scope.
Delimit Scope py_scope with py.
Notation "x <- r ;; k" := (bind r (fun x => k))
  (at level 61, r at next level, right associativity) : py_scope.
Notation "' p <- r ;; k" := (bind r (fun x => let p := x in k))
  (at level 61, p pattern, r at next level, right associativity) : py_scope.

Definition of_option {A : Type} (e : exn) (o : option A) : result A :=
  match o with
  | Some a => Ok a
  | None => Err e
  end.

(** A list comprehension whose element expression may raise: the first
    exception ends the comprehension. *)
Fixpoint mapM {A B : Type} (f : A -> result B) (l : list A) : result (list B) :=
  match l with
  | [] => Ok []
  | a :: l' =>
      (b <- f a ;;
       bs <- mapM f l' ;;
       Ok (b :: bs))%py
  end.

(** A list comprehension with an [if] clause that may raise. *)
Fixpoint filterM {A : Type} (p : A -> result bool) (l : list A)
  : result (list A) :=
  match l with
  | [] => Ok []
  | a :: l' =>
      (keep <- p a ;;
       rest <- filterM p l' ;;
       Ok (if keep then a :: rest else rest))%py
  end.

(** [l[i]] for [i >= 0] and [l[-1]]. *)
Definition index {A : Type} (l : list A) (i : nat) : result A :=
  of_option IndexError (nth_error l i).

Fixpoint last_opt {A : Type} (l : list A) : option A :=
  match l with
  | [] => None
  | [a] => Some a
  | _ :: l' => last_opt l'
  end.

Definition index_last {A : Type} (l : list A) : result A :=
  of_option IndexError (last_opt l).

(* ================================================================== *)
(** * Text: [str.splitlines] and [str.split('\t')]

    A [string] is read as a sequence of code points below 256. *)

Local Open Scope char_scope.

Definition TAB : ascii := "009".
Definition LF : ascii := "010".
Definition CR : ascii := "013".

(** The line boundaries of [str.splitlines] among the code points below
    256: LF, VT, FF, CR, FS, GS, RS and NEL. *)
Definition is_linebreak (c : ascii) : bool :=
  match nat_of_ascii c with
  | 10 | 11 | 12 | 13 | 28 | 29 | 30 | 133 => true
  | _ => false
  end%nat.

Local Open Scope string_scope.

Definition snoc (s : string) (c : ascii) : string := s ++ String c "".

(** [line] is the line read so far.  CR LF is one boundary; a last line
    without characters is not returned. *)
Fixpoint splitlines_from (line s : string) : list string :=
  match s with
  | "" => match line with "" => [] | _ => [line] end
  | String c rest =>
      if is_linebreak c then
        match rest with
        | String c' rest' =>
            if (Ascii.eqb c CR && Ascii.eqb c' LF)%bool
            then line :: splitlines_from "" rest'
            else line :: splitlines_from "" rest
        | "" => [line]
        end
      else splitlines_from (snoc line c) rest
  end.

Definition splitlines (s : string) : list string := splitlines_from "" s.

(** [s.split('\t')]: one more field than there are tabs. *)
Fixpoint split_tab_from (field s : string) : list string :=
  match s with
  | "" => [field]
  | String c rest =>
      if Ascii.eqb c TAB then field :: split_tab_from "" rest
      else split_tab_from (snoc field c) rest
  end.

Definition split_tab (s : string) : list string := split_tab_from "" s.

(* ================================================================== *)
(** * Values and rows of the data sheet *)

Inductive pyval : Type :=
| PInt (n : Z)
| PFloat (x : Q)
| PStr (s : string).

(** [v == 'text']: a number never equals a string. *)
Definition is_str (v : pyval) (text : string) : bool :=
  match v with
  | PStr s => String.eqb s text
  | _ => false
  end.

(** A row of [data_sheet] after the conversion of lines 72-77 is a list
    that starts with an [int] and a [float]; [rest] is what follows them. *)
Record row : Type := mkRow {
  unix_time : Z;
  charge : Q;
  rest : list pyval
}.

(** [line[i]] *)
Definition row_index (line : row) (i : nat) : result pyval :=
  match i with
  | O => Ok (PInt (unix_time line))
  | S O => Ok (PFloat (charge line))
  | S (S k) => index (rest line) k
  end.

(** [line[-1]] *)
Definition row_last (line : row) : pyval :=
  match last_opt (rest line) with
  | Some v => v
  | None => PFloat (charge line)
  end.

(* ================================================================== *)
(** * Data preparation (lines 68-82) *)

Local Open Scope Q_scope.

(** The globals that the rest of the script reads. *)
Record Data : Type := mkData {
  data_sheet : list row;
  timeline : list Z;
  charge_data : list Q;
  current_charge : Q
}.

Section DataPreparation.

(** The builtins [int] and [float] applied to a string: [None] stands
    for [ValueError]. *)
Variable py_int : string -> option Z.
Variable py_float : string -> option Q.

(** [[int(line[0]), float(line[1])]] *)
Definition convert_line (line : list string) : result row :=
  (a <- index line 0 ;;
   n <- of_option ValueError (py_int a) ;;
   b <- index line 1 ;;
   x <- of_option ValueError (py_float b) ;;
   Ok (mkRow n x []))%py.

(** [line[2] != 'unknown'] *)
Definition status_known (line : row) : result bool :=
  (v <- row_index line 2 ;;
   Ok (negb (is_str v "unknown")))%py.

(** Line 81 transposes [data_sheet] with [zip], keeps the first two
    columns and unpacks them into [timeline] and [charge_data]: without
    rows there are no columns to unpack. *)
Definition unpack_columns (sheet : list row) : result (list Z * list Q) :=
  match sheet with
  | [] => Err ValueError
  | _ => Ok (map unix_time sheet, map charge sheet)
  end.

Definition load (data : string) : result Data :=
  (let sheet := map split_tab (splitlines data) in
   sheet <- mapM convert_line sheet ;;
   sheet <- filterM status_known sheet ;;
   ' (timeline, charge_data) <- unpack_columns sheet ;;
   current_charge <- index_last charge_data ;;
   Ok (mkData sheet timeline charge_data current_charge))%py.

End DataPreparation.

(** Decimal literals as upower writes them, for running [load] on sample
    files: an optional sign and digits, and for a float an optional
    fraction.  [int] and [float] accept these strings and more. *)
Definition digit_of (c : ascii) : option Z :=
  let n := nat_of_ascii c in
  if ((48 <=? n) && (n <=? 57))%nat then Some (Z.of_nat (n - 48)) else None.

Fixpoint digits_from (acc : Z) (s : string) : option Z :=
  match s with
  | EmptyString => Some acc
  | String c s' =>
      match digit_of c with
      | Some d => digits_from (10 * acc + d)%Z s'
      | None => None
      end
  end.

Definition unsigned_decimal (s : string) : option Z :=
  match s with
  | EmptyString => None
  | _ => digits_from 0%Z s
  end.

Definition decimal_int (s : string) : option Z :=
  match s with
  | String "-"%char s' => option_map Z.opp (unsigned_decimal s')
  | String "+"%char s' => unsigned_decimal s'
  | _ => unsigned_decimal s
  end.

Fixpoint split_point_from (whole s : string) : string * option string :=
  match s with
  | EmptyString => (whole, None)
  | String c s' =>
      if Ascii.eqb c "."%char then (whole, Some s')
      else split_point_from (snoc whole c) s'
  end.

Definition unsigned_float (s : string) : option Q :=
  match split_point_from EmptyString s with
  | (whole, None) => option_map inject_Z (unsigned_decimal whole)
  | (whole, Some frac) =>
      match unsigned_decimal whole, unsigned_decimal frac with
      | Some w, Some f =>
          Some (inject_Z w
                + inject_Z f / inject_Z (10 ^ Z.of_nat (String.length frac)))
      | _, _ => None
      end
  end.

Definition decimal_float (s : string) : option Q :=
  match s with
  | String "-"%char s' => option_map Qopp (unsigned_float s')
  | String "+"%char s' => unsigned_float s'
  | _ => unsigned_float s
  end.

(* ================================================================== *)
(** * The compressed timeline (lines 85-93) *)

(** [AN_HOUR.total_seconds()] *)
Definition AN_HOUR : Q := 3600.

Definition MAX_GAP : Q := 0.2 * AN_HOUR.

(** [x < y] on floats, as a test. *)
Definition Qlt_bool (x y : Q) : bool := negb (Qle_bool y x).

(** The body of the loop at index [idx]: when the gap before [idx] is
    larger than [max_gap], the slice [[:idx]] is replaced by its entries
    moved forward. *)
Definition close_gap (max_gap : Q) (tz : list Q) (idx : nat) : list Q :=
  let delta := nth idx tz 0 - nth (idx - 1) tz 0 in
  if Qlt_bool max_gap delta then
    (map (fun timestamp => timestamp + delta - max_gap) (firstn idx tz)
       ++ skipn idx tz)%list
  else tz.

(** [for idx in range(1, len(timeline_zipped))] *)
Definition zip_timeline (max_gap : Q) (tz : list Q) : list Q :=
  fold_left (close_gap max_gap) (seq 1 (List.length tz - 1)) tz.

(** [timeline_zipped = list(timeline)], then the loop with [MAX_GAP]. *)
Definition timeline_zipped (timeline : list Z) : list Q :=
  zip_timeline MAX_GAP (map inject_Z timeline).

(* ================================================================== *)
(** * The state of the user interface *)

(** The attributes of the [BatteryStat] object: the two view flags, the
    plot range [[t_start, t_end]], and the samples inside it
    ([self.timeline], [self.charge_data]). *)
Record BatteryStat : Type := mkStat {
  compress : bool;
  relative : bool;
  plot_range : Q * Q;
  self_timeline : list Q;
  self_charge_data : list Q
}.

(** The two sliders hold the negated hours, the object holds the view, and
    [formats] counts the calls of [format] made so far. *)
Record World : Type := mkWorld {
  slider_history_max : Q;
  slider_history_min : Q;
  stat : BatteryStat;
  formats : nat
}.

Definition BATTERY_MAX_CHARGE : Z := 85.
Definition DEFAULT_HISTORY_MIN : Q := 0.
Definition DEFAULT_HISTORY_MAX : Q := 12.

(** [x / y] on floats. *)
Definition truediv (x y : Q) : result Q :=
  if Qeq_bool y 0 then Err ZeroDivisionError else Ok (x / y).

(** [round(x)] on a float: the nearest integer, and of the two nearest
    ones the even one when [x] lies halfway between them. *)
Definition round_half_even (x : Q) : Z :=
  let below := Qfloor x in
  match Qcompare (x - inject_Z below) (1 # 2) with
  | Lt => below
  | Eq => if Z.even below then below else (below + 1)%Z
  | Gt => (below + 1)%Z
  end.

(** [timedelta(hours=hours).total_seconds()]: a [timedelta] holds a whole
    number of microseconds, to which the constructor rounds the seconds
    [hours * 3600] with [round]. *)
Definition hours_in_seconds (hours : Q) : Q :=
  inject_Z (round_half_even (hours * AN_HOUR * 1000000)) / 1000000.

(* ================================================================== *)
(** * [BatteryStat.format] (lines 231-278) *)

Section Format.

Variable d : Data.

(** The samples of [timeline_local] inside the range, each with the
    charge at its index, [idx] being the index of the head of [tl]. *)
Fixpoint new_data_from (t_start t_end : Q) (idx : nat) (tl : list Q)
  : result (list (Q * Q)) :=
  match tl with
  | [] => Ok []
  | time :: tl' =>
      if (Qle_bool t_start time && Qle_bool time t_end)%bool then
        (c <- index (charge_data d) idx ;;
         more <- new_data_from t_start t_end (S idx) tl' ;;
         Ok ((time, c) :: more))%py
      else new_data_from t_start t_end (S idx) tl'
  end.

(** [timestamp_now] is the reading that [timestamp_now()] returns if
    this call makes it. *)
Definition format (timestamp_now : Q) (compress' relative' : option bool)
    (min_max_history : Q * Q) (self : BatteryStat) : result BatteryStat :=
  (let self_compress :=
     match compress' with Some v => v | None => compress self end in
   let self_relative :=
     match relative' with Some v => v | None => relative self end in
   ' (timeline_local, now) <-
      (if self_compress then
         (let timeline_local := timeline_zipped (timeline d) in
          now <- index_last timeline_local ;;
          Ok (timeline_local, now))
       else Ok (map inject_Z (timeline d), timestamp_now)) ;;
   let t_end := now - hours_in_seconds (fst min_max_history) in
   let t_start := now - hours_in_seconds (snd min_max_history) in
   new_data <- new_data_from t_start t_end 0 timeline_local ;;
   Ok (mkStat self_compress self_relative (t_start, t_end)
              (map fst new_data) (map snd new_data)))%py.

End Format.

(* ================================================================== *)
(** * [BatteryStat.analyze] (lines 280-320) *)

(** What [analyze] shows: the title that asks for a monotonic domain, or
    the statistics ([left] is the remaining time). *)
Record Statistics : Type := mkStatistics {
  rate : Q;
  life : Q;
  full_life : Q;
  left : option Q
}.

Inductive TrendResult : Type :=
| NoTrend
| Trend (s : Statistics).

(** [all(rel(x, y) for x, y in zip(data, data[1:]))] *)
Definition all_adjacent (rel : Q -> Q -> bool) (data : list Q) : bool :=
  forallb (fun xy => rel (fst xy) (snd xy)) (combine data (tl data)).

Definition Qge_bool (x y : Q) : bool := Qle_bool y x.

(** The test of line 283: two samples or fewer, or charges that neither
    rise throughout nor fall throughout. *)
Definition no_trend_guard (self : BatteryStat) : bool :=
  ((List.length (self_timeline self) <=? 2)%nat
   || (negb (all_adjacent Qle_bool (self_charge_data self))
       && negb (all_adjacent Qge_bool (self_charge_data self))))%bool.

(** Lines 294-311: the time range in hours, the rate, the two lives and
    the remaining time. *)
Definition statistics (d : Data) (self : BatteryStat) : result Statistics :=
  let timeline := self_timeline self in
  let charge_data := self_charge_data self in
  (t_last <- index_last timeline ;;
   t_first <- index timeline 0 ;;
   t_range <- truediv (t_last - t_first) AN_HOUR ;;
   c_last <- index_last charge_data ;;
   c_first <- index charge_data 0 ;;
   rate <- truediv (c_last - c_first) t_range ;;
   life <- truediv (inject_Z BATTERY_MAX_CHARGE) (Qabs rate) ;;
   full_life <- truediv 100 (Qabs rate) ;;
   last_line <- index_last (data_sheet d) ;;
   let status := row_last last_line in
   left <-
     (if is_str status "discharging" then
        (x <- truediv (current_charge d) (Qabs rate) ;; Ok (Some x))
      else if is_str status "charging" then
        (x <- truediv (inject_Z BATTERY_MAX_CHARGE - current_charge d)
                      (Qabs rate) ;;
         Ok (Some x))
      else Ok None) ;;
   Ok (mkStatistics rate life full_life left))%py.

Definition analyze (d : Data) (self : BatteryStat) : result TrendResult :=
  if no_trend_guard self then Ok NoTrend
  else (s <- statistics d self ;; Ok (Trend s))%py.

(** [BatteryStat.graph] (lines 341-351) calls [analyze] and then sets
    the ticks and draws the samples of the window.  The ticks and the
    drawing are calls of the plotting library on the local time; they
    assign nothing that [format], [analyze] or [update] reads and are
    taken not to raise, so that what [graph] adds to the state of the
    interface is the exception that [analyze] may raise. *)
Definition graph (d : Data) (self : BatteryStat) : result TrendResult :=
  analyze d self.

(* ================================================================== *)
(** * [BatteryStat.update] (lines 353-383) *)

Section Update.

Variable d : Data.

(** [clock n] is the wall clock at the time of the [n]-th call of
    [format]. *)
Variable clock : nat -> Q.

(** The view flags that a switch label selects; the value a slider
    passes selects none. *)
Definition options_of (value : pyval) : option bool * option bool :=
  let options := (None, None) in
  let options :=
    if is_str value "Compressed" then (Some true, Some true) else options in
  let options :=
    if is_str value "Relative" then (Some false, Some true) else options in
  let options :=
    if is_str value "Absolute" then (Some false, Some false) else options in
  options.

(** [slider_history_max.set_val(-max_history)] stores the value and
    calls the observers of the slider, of which [update] is the only
    one: [fuel] bounds the depth of these calls, and an exception that
    the observer raises comes out of [set_val].  After [format],
    [update] calls [self.graph()], so that an exception of [analyze]
    comes out of [update] with the state lost to the caller;
    [draw_idle()] only asks for a redraw. *)
Fixpoint update (fuel : nat) (value : pyval) (w : World) : result World :=
  match fuel with
  | O => Err RecursionError
  | S fuel' =>
      (let min_history := - slider_history_min w in
       let max_history := - slider_history_max w in
       ' (max_history, w) <-
          (if Qle_bool max_history min_history then
             (let max_history := min_history + 0.1 in
              let w := mkWorld (- max_history) (slider_history_min w)
                               (stat w) (formats w) in
              w <- update fuel' (PFloat (- max_history)) w ;;
              Ok (max_history, w))
           else Ok (max_history, w)) ;;
       let options := options_of value in
       self <- format d (clock (formats w)) (fst options) (snd options)
                      (min_history, max_history) (stat w) ;;
       _ <- graph d self ;;
       Ok (mkWorld (slider_history_max w) (slider_history_min w)
                   self (S (formats w))))%py
  end.

End Update.

(* ================================================================== *)
(** * Predicates of the specification, and the loop as a recursion *)

(** [R] holds between every two neighbours of [l]. *)
Fixpoint adjacent (R : Q -> Q -> Prop) (l : list Q) : Prop :=
  match l with
  | [] => True
  | x :: l' =>
      match l' with
      | [] => True
      | y :: _ => R x y /\ adjacent R l'
      end
  end.

Definition non_decreasing (data : list Q) : Prop := adjacent Qle data.

Definition non_increasing (data : list Q) : Prop :=
  adjacent (fun x y => y <= x) data.

Definition monotonic (data : list Q) : Prop :=
  non_decreasing data \/ non_increasing data.

(** The move of a timestamp before a gap of [delta]. *)
Definition shift_by (max_gap delta : Q) : Q -> Q :=
  fun timestamp => timestamp + delta - max_gap.

(** The gap from [x] to its successor [y] is at most [max_gap]. *)
Definition gap_within (max_gap : Q) (x y : Q) : Prop := y - x <= max_gap.

(** The globals as lines 80-82 leave them when they do not raise: there
    is a row, the two columns are those of the data sheet, and
    [current_charge] is the last charge. *)
Definition prepared (d : Data) : Prop :=
  data_sheet d <> []
  /\ timeline d = map unix_time (data_sheet d)
  /\ charge_data d = map charge (data_sheet d)
  /\ index_last (charge_data d) = Ok (current_charge d).

(** The loop of the compressed timeline, read off its state: [done] is
    the slice before the index, [todo] the slice from the index on. *)
Fixpoint sweep (max_gap : Q) (done todo : list Q) : list Q :=
  match todo with
  | [] => done
  | x :: todo' =>
      let delta := x - last done 0 in
      let done' :=
        if Qlt_bool max_gap delta
        then map (fun timestamp => timestamp + delta - max_gap) done
        else done in
      sweep max_gap (done' ++ [x]) todo'
  end.

(** A well-formed input of [load]: every line has three fields or more,
    the first an [int] literal and the second a [float] literal. *)
Definition well_formed_line (py_int : string -> option Z)
    (py_float : string -> option Q) (line : string) : Prop :=
  exists time charge status more,
    split_tab line = time :: charge :: status :: more
    /\ py_int time <> None /\ py_float charge <> None.

Definition well_formed (py_int : string -> option Z)
    (py_float : string -> option Q) (data : string) : Prop :=
  Forall (well_formed_line py_int py_float) (splitlines data).

(** Sample data: three readings an hour apart, the battery charging. *)
Definition sample_file : string :=
  "1600000000" ++ String TAB "10.0" ++ String TAB "charging" ++ String LF
  ("1600003600" ++ String TAB "20.0" ++ String TAB "charging" ++ String LF
  ("1600007200" ++ String TAB "30.0" ++ String TAB "charging" ++ String LF "")).

Definition sample_data : Data :=
  mkData [mkRow 1600000000 10 [PStr "charging"];
          mkRow 1600003600 20 [PStr "charging"];
          mkRow 1600007200 30 [PStr "charging"]]
         [1600000000; 1600003600; 1600007200]%Z
         [10; 20; 30]
         30.

(** [BatteryStat.__init__]: both view flags set, then [format] with its
    defaults. *)
Definition initial_stat : BatteryStat := mkStat true true (0, 0) [] [].

Definition init (d : Data) (timestamp_now : Q) : result BatteryStat :=
  format d timestamp_now None None
         (DEFAULT_HISTORY_MIN, DEFAULT_HISTORY_MAX) initial_stat.

(* ================================================================== *)
(** * The choice of the data file (lines 27-66) *)

(** How the search for a data file ends: [exit(1)], a file, or an
    exception. *)
Inductive selection (File : Type) : Type :=
| Exit (code : Z)
| Selected (file : File)
| Raised (e : exn).

Arguments Exit {File} code.
Arguments Selected {File} file.
Arguments Raised {File} e.

Section FileChoice.

Variable File : Type.

(** The builtin [int] applied to a string: [None] stands for
    [ValueError]. *)
Variable py_int : string -> option Z.

(** The files that the glob found. *)
Variable data_files : list File.

(** [answers n] is the line that the [n]-th call of [input] returns, or
    [None] when the input has ended, where [input] raises [EOFError]. *)
Variable answers : nat -> option string.

Definition num_data_files : Z := Z.of_nat (List.length data_files).

(** Lines 52-58: the index that an answer names, or [None] when one of
    the exceptions of line 59 is raised.  An empty answer stands for the
    number of files, any other answer goes through [int]; the index is one
    less, and has to lie in [range(num_data_files)]. *)
Definition chosen_index (answer : string) : option Z :=
  let idx :=
    if String.eqb answer "" then Some num_data_files else py_int answer in
  match idx with
  | None => None
  | Some n =>
      let idx := (n - 1)%Z in
      if ((0 <=? idx)%Z && (idx <? num_data_files)%Z)%bool
      then Some idx else None
  end.

(** [choose_file] asks again, by calling itself, after an answer that is
    not accepted: [asked] counts the answers read so far and [fuel]
    bounds the depth of the calls.  The [EOFError] of [input] is not among
    the exceptions of line 59 and leaves [choose_file]. *)
Fixpoint choose_file (fuel asked : nat) : result File :=
  match fuel with
  | O => Err RecursionError
  | S fuel' =>
      match answers asked with
      | None => Err EOFError
      | Some answer =>
          match chosen_index answer with
          | Some idx => index data_files (Z.to_nat idx)
          | None => choose_file fuel' (S asked)
          end
      end
  end.

(** Lines 32-66: without files the script exits with status 1, a single
    file is taken as it is, and among several the user chooses. *)
Definition select_data_file (fuel : nat) : selection File :=
  match data_files with
  | [] => Exit 1
  | _ =>
      let chosen :=
        if (num_data_files =? 1)%Z then index_last data_files
        else choose_file fuel 0 in
      match chosen with
      | Ok file => Selected file
      | Err e => Raised e
      end
  end.

End FileChoice.

Arguments num_data_files {File} data_files.
Arguments chosen_index {File} py_int data_files answer.
Arguments choose_file {File} py_int data_files answers fuel asked.
Arguments select_data_file {File} py_int data_files answers fuel.

(* ================================================================== *)
(** * [BatteryStat.reset] (lines 385-387) *)

Section Reset.

Variable d : Data.
Variable clock : nat -> Q.

(** [Slider.reset()] does nothing when the slider holds its initial
    value, and otherwise sets it with [set_val], which stores the value and
    calls [update].  The initial values are those of lines 112 and 115. *)
Definition reset_history_max (fuel : nat) (w : World) : result World :=
  let valinit := - DEFAULT_HISTORY_MAX in
  if Qeq_bool (slider_history_max w) valinit then Ok w
  else update d clock fuel (PFloat valinit)
              (mkWorld valinit (slider_history_min w) (stat w) (formats w)).

Definition reset_history_min (fuel : nat) (w : World) : result World :=
  let valinit := DEFAULT_HISTORY_MIN in
  if Qeq_bool (slider_history_min w) valinit then Ok w
  else update d clock fuel (PFloat valinit)
              (mkWorld (slider_history_max w) valinit (stat w) (formats w)).

Definition reset (fuel : nat) (w : World) : result World :=
  (w <- reset_history_max fuel w ;;
   reset_history_min fuel w)%py.

End Reset.

(* ================================================================== *)
(** * Further predicates *)

(** The differences between neighbours. *)
Definition gaps (l : list Q) : list Q :=
  map (fun xy => snd xy - fst xy) (combine l (tl l)).

(** A gap after the loop: the threshold where the test of line 89 holds,
    the gap itself where it does not. *)
Definition capped_gap (max_gap gap : Q) : Q :=
  if Qlt_bool max_gap gap then max_gap else gap.

(** A gap [gap'] of the compressed timeline against the gap [gap] it
    comes from. *)
Definition capped (max_gap gap gap' : Q) : Prop :=
  gap' == capped_gap max_gap gap.

(** The flag that an option of [format] leaves. *)
Definition resolved (option : option bool) (flag : bool) : bool :=
  match option with Some v => v | None => flag end.

(** The test of line 273. *)
Definition in_range (t_start t_end time : Q) : bool :=
  (Qle_bool t_start time && Qle_bool time t_end)%bool.

(** The timeline that [format] reads in either mode. *)
Definition timeline_local (d : Data) (compressed : bool) : list Q :=
  if compressed then timeline_zipped (timeline d)
  else map inject_Z (timeline d).

(** Readings that change: the timestamps increase strictly, and no
    reading repeats the charge of the reading before it. *)
Definition changing (d : Data) : Prop :=
  adjacent Qlt (map inject_Z (timeline d))
  /\ adjacent (fun x y => ~ x == y) (charge_data d).


Local Close Scope string_scope.
Local Open Scope list_scope.

(* ================================================================== *)
(** * The script on the sample data *)

Example splitlines_sample :
  List.length (splitlines sample_file) = 3%nat.
Proof. reflexivity. Qed.

Example timeline_zipped_sample :
  map Qred (timeline_zipped [0; 1000; 2000; 2100; 20100]%Z)
  = [17840; 18560; 19280; 19380; 20100].
Proof. reflexivity. Qed.

Example init_sample :
  exists self,
    init sample_data 0 = Ok self
    /\ map Qred (self_timeline self)
       = [1600005760; 1600006480; 1600007200]
    /\ self_charge_data self = [10; 20; 30].
Proof. eexists. repeat split. Qed.

Example analyze_sample :
  exists s,
    analyze sample_data
      (mkStat true true (0, 0) [0; 3600; 7200] [10; 20; 30]) = Ok (Trend s)
    /\ rate s == 10
    /\ life s == 8.5
    /\ full_life s == 10
    /\ exists x, left s = Some x /\ x == 5.5.
Proof. eexists. repeat split. eexists. split; reflexivity. Qed.

(* ================================================================== *)
(** * Properties of the data preparation *)

Lemma bind_Ok {A B : Type} (r : result A) (k : A -> result B) (b : B) :
  bind r k = Ok b -> exists a, r = Ok a /\ k a = Ok b.
Proof.
  destruct r as [a | e]; simpl; intros H; [ eauto | discriminate ].
Qed.

Lemma last_opt_None {A : Type} (l : list A) : last_opt l = None -> l = [].
Proof.
  induction l as [| a [| b l'] IH]; simpl; intros H;
    [ reflexivity | discriminate | ].
  apply IH in H. discriminate.
Qed.

Lemma last_opt_app_cons {A : Type} (l l' : list A) (x : A) :
  last_opt (l ++ x :: l') = last_opt (x :: l').
Proof.
  induction l as [| a l IH]; [ reflexivity | ].
  change ((a :: l) ++ x :: l')%list with (a :: (l ++ x :: l'))%list.
  destruct (l ++ x :: l')%list as [| b m] eqn:E.
  - destruct l; discriminate.
  - rewrite <- IH. reflexivity.
Qed.

Section LoadFacts.

Variable py_int : string -> option Z.
Variable py_float : string -> option Q.

Lemma convert_line_rest (line : list string) (r : row) :
  (convert_line py_int py_float) line = Ok r -> rest r = [].
Proof.
  unfold convert_line. intros H.
  repeat (apply bind_Ok in H; destruct H as (? & _ & H)).
  injection H as <-. reflexivity.
Qed.

Lemma mapM_convert_rest (lines : list (list string)) :
  forall sheet, mapM (convert_line py_int py_float) lines = Ok sheet ->
                Forall (fun r => rest r = []) sheet.
Proof.
  induction lines as [| line lines IH]; simpl; intros sheet H.
  - injection H as <-. constructor.
  - apply bind_Ok in H. destruct H as (r & Hr & H).
    apply bind_Ok in H. destruct H as (rs & Hrs & H).
    injection H as <-. constructor; [ | apply IH; exact Hrs ].
    eapply convert_line_rest; exact Hr.
Qed.

(** A converted row has no third entry. *)
Lemma status_known_raises (r : row) :
  rest r = [] -> status_known r = Err IndexError.
Proof.
  unfold status_known, row_index. intros ->. reflexivity.
Qed.

Lemma filterM_status_known_raises (sheet : list row) :
  sheet <> [] -> Forall (fun r => rest r = []) sheet ->
  filterM status_known sheet = Err IndexError.
Proof.
  destruct sheet as [| r sheet]; [ congruence | ]. intros _ H.
  inversion H as [| ? ? Hr _]; subst. simpl.
  rewrite (status_known_raises r Hr). reflexivity.
Qed.

(** Whatever the file holds, the data preparation raises. *)
Lemma load_never_succeeds (data : string) :
  exists e, load py_int py_float data = Err e.
Proof.
  unfold load.
  destruct (mapM (convert_line py_int py_float)
                 (map split_tab (splitlines data)))
    as [sheet | e] eqn:E; simpl; [ | eauto ].
  destruct sheet as [| r sheet].
  - simpl. eauto.
  - rewrite filterM_status_known_raises;
      [ simpl; eauto | discriminate | eapply mapM_convert_rest; exact E ].
Qed.

Lemma convert_well_formed_line (line : string) :
  well_formed_line py_int py_float line ->
  exists r, (convert_line py_int py_float) (split_tab line) = Ok r.
Proof.
  intros (time & chg & status & more & E & Ht & Hc).
  unfold convert_line. rewrite E. simpl.
  destruct (py_int time) as [n |]; [ | congruence ].
  destruct (py_float chg) as [x |]; [ | congruence ].
  simpl. eauto.
Qed.

Lemma mapM_convert_well_formed (lines : list string) :
  Forall (well_formed_line py_int py_float) lines ->
  exists sheet,
    mapM (convert_line py_int py_float) (map split_tab lines) = Ok sheet
                /\ List.length sheet = List.length lines.
Proof.
  induction 1 as [| line lines Hl _ IH]; simpl.
  - exists []. split; reflexivity.
  - destruct (convert_well_formed_line line Hl) as (r & ->).
    destruct IH as (sheet & -> & Hlen). simpl.
    exists (r :: sheet). split; [ reflexivity | simpl; congruence ].
Qed.

(** C1, as the code behaves: on a well-formed file with a line in it,
    the data preparation does not return a series.  Lines 72-77 keep only
    the time and the charge of a line, so the test of line 80 on the
    third entry raises [IndexError] at the first row. *)
Theorem load_well_formed_raises (data : string) :
  well_formed py_int py_float data ->
  splitlines data <> [] ->
  load py_int py_float data = Err IndexError.
Proof.
  intros Hwf Hne. unfold load.
  destruct (mapM_convert_well_formed _ Hwf) as (sheet & E & Hlen).
  rewrite E. simpl.
  rewrite filterM_status_known_raises; [ reflexivity | | ].
  - intros ->. destruct (splitlines data); [ congruence | discriminate ].
  - eapply mapM_convert_rest. exact E.
Qed.

End LoadFacts.

Lemma sample_file_well_formed :
  well_formed decimal_int decimal_float sample_file.
Proof.
  unfold well_formed.
  let lines := eval vm_compute in (splitlines sample_file) in
  change (splitlines sample_file) with lines.
  repeat constructor;
    (do 4 eexists; split; [ vm_compute; reflexivity | ];
     split; vm_compute; discriminate).
Qed.

Lemma load_well_formed_raises_witness :
  load decimal_int decimal_float sample_file = Err IndexError.
Proof.
  apply (load_well_formed_raises decimal_int decimal_float sample_file).
  - exact sample_file_well_formed.
  - vm_compute. discriminate.
Defined.

(* ================================================================== *)
(** * Properties of [adjacent] *)

Lemma adjacent_cons (R : Q -> Q -> Prop) (x y : Q) (l : list Q) :
  adjacent R (x :: y :: l) <-> R x y /\ adjacent R (y :: l).
Proof. reflexivity. Qed.

(** Two sequences that share the element [x] are joined at it. *)
Lemma adjacent_app (R : Q -> Q -> Prop) (l l' : list Q) (x : Q) :
  adjacent R (l ++ x :: l') <-> adjacent R (l ++ [x]) /\ adjacent R (x :: l').
Proof.
  induction l as [| a l IH].
  - simpl app. split; [ intros H; split; [ exact I | exact H ] | tauto ].
  - destruct l as [| b l].
    + simpl app. rewrite adjacent_cons. simpl (adjacent R [a; x]). tauto.
    + change (adjacent R (a :: b :: (l ++ x :: l')) <->
              adjacent R (a :: b :: (l ++ [x])) /\ adjacent R (x :: l')).
      rewrite !adjacent_cons.
      change (b :: l ++ x :: l')%list with ((b :: l) ++ x :: l')%list.
      change (b :: l ++ [x])%list with ((b :: l) ++ [x])%list.
      rewrite IH. tauto.
Qed.

Lemma adjacent_snoc (R : Q -> Q -> Prop) (l : list Q) (y x : Q) :
  adjacent R ((l ++ [y]) ++ [x]) <-> adjacent R (l ++ [y]) /\ R y x.
Proof.
  rewrite <- app_assoc. simpl app. rewrite adjacent_app.
  simpl (adjacent R [y; x]). tauto.
Qed.

Lemma adjacent_map_snoc (R : Q -> Q -> Prop) (f : Q -> Q) (l : list Q)
    (y x : Q) :
  adjacent R (map f (l ++ [y]) ++ [x])
  <-> adjacent R (map f (l ++ [y])) /\ R (f y) x.
Proof. rewrite map_app. simpl map. apply adjacent_snoc. Qed.

Lemma adjacent_map (R : Q -> Q -> Prop) (f : Q -> Q) (l : list Q) :
  (forall x y, R x y -> R (f x) (f y)) ->
  adjacent R l -> adjacent R (map f l).
Proof.
  intros Hf. induction l as [| a [| b l] IH]; simpl; try tauto.
  intros [Hab H]. split; [ apply Hf; exact Hab | apply IH; exact H ].
Qed.

(** The test of [analyze] decides [adjacent]. *)
Lemma all_adjacent_spec (rel : Q -> Q -> bool) (R : Q -> Q -> Prop)
    (data : list Q) :
  (forall x y, rel x y = true <-> R x y) ->
  all_adjacent rel data = true <-> adjacent R data.
Proof.
  intros Hrel. unfold all_adjacent.
  induction data as [| a [| b l] IH]; simpl; try tauto.
  rewrite andb_true_iff, Hrel. simpl in IH. rewrite IH. tauto.
Qed.

Lemma Qge_bool_iff (x y : Q) : Qge_bool x y = true <-> y <= x.
Proof. unfold Qge_bool. apply Qle_bool_iff. Qed.

Lemma Qlt_bool_iff (x y : Q) : Qlt_bool x y = true <-> x < y.
Proof.
  unfold Qlt_bool. rewrite negb_true_iff.
  destruct (Qle_bool y x) eqn:E.
  - apply Qle_bool_iff in E. split; [ discriminate | intros H; lra ].
  - split; [ intros _ | reflexivity ].
    apply Qnot_le_lt. intros H. apply Qle_bool_iff in H. congruence.
Qed.

Lemma Qlt_bool_false (x y : Q) : Qlt_bool x y = false <-> y <= x.
Proof.
  unfold Qlt_bool. rewrite negb_false_iff. apply Qle_bool_iff.
Qed.

(* ================================================================== *)
(** * The loop of the compressed timeline, step by step *)

Section Compression.

Variable max_gap : Q.

(** At the index that follows [done], the loop body reads the last
    entry of [done] and the entry [x], and rewrites [done] alone. *)
Lemma close_gap_at (done todo : list Q) (x : Q) :
  done <> [] ->
  close_gap max_gap (done ++ x :: todo) (List.length done)
  = ((if Qlt_bool max_gap (x - last done 0)
      then map (shift_by max_gap (x - last done 0)) done
      else done) ++ x :: todo)%list.
Proof.
  intros Hne. destruct (exists_last Hne) as (pre & y & ->).
  unfold close_gap. rewrite nth_middle, last_last.
  replace (List.length (pre ++ [y]) - 1)%nat with (List.length pre)
    by (rewrite length_app; simpl; lia).
  rewrite <- app_assoc. simpl (([y] ++ x :: todo)%list).
  rewrite nth_middle.
  change (pre ++ y :: x :: todo)%list with (pre ++ [y] ++ x :: todo)%list.
  rewrite app_assoc.
  destruct (Qlt_bool max_gap (x - y)); [ | reflexivity ].
  rewrite firstn_app, skipn_app, firstn_all, skipn_all, Nat.sub_diag.
  simpl. rewrite app_nil_r. reflexivity.
Qed.

Lemma fold_close_gap_sweep (todo : list Q) :
  forall done, done <> [] ->
  fold_left (close_gap max_gap)
            (seq (List.length done) (List.length todo)) (done ++ todo)
  = sweep max_gap done todo.
Proof.
  induction todo as [| x todo IH]; intros done Hne.
  - simpl. apply app_nil_r.
  - simpl. rewrite close_gap_at by exact Hne.
    fold (shift_by max_gap (x - last done 0)).
    set (done' := if Qlt_bool max_gap (x - last done 0)
                  then map (shift_by max_gap (x - last done 0)) done else done).
    assert (Hlen : List.length done' = List.length done).
    { unfold done'.
      destruct (Qlt_bool _ _); [ apply length_map | reflexivity ]. }
    replace (done' ++ x :: todo)%list with ((done' ++ [x]) ++ todo)%list
      by (rewrite <- app_assoc; reflexivity).
    replace (S (List.length done)) with (List.length (done' ++ [x]))
      by (rewrite length_app, Hlen; simpl; lia).
    apply IH. destruct done'; discriminate.
Qed.

(** The loop computes [sweep] from the first entry. *)
Lemma zip_timeline_sweep (a : Q) (l : list Q) :
  zip_timeline max_gap (a :: l) = sweep max_gap [a] l.
Proof.
  unfold zip_timeline.
  replace (List.length (a :: l) - 1)%nat with (List.length l)
    by (simpl; lia).
  apply (fold_close_gap_sweep l [a]). discriminate.
Qed.

Lemma sweep_length (todo : list Q) :
  forall done,
    List.length (sweep max_gap done todo)
    = (List.length done + List.length todo)%nat.
Proof.
  induction todo as [| x todo IH]; intros done; simpl.
  - lia.
  - rewrite IH, length_app. simpl.
    destruct (Qlt_bool _ _); [ rewrite length_map | ]; lia.
Qed.

Lemma sweep_last (todo : list Q) :
  forall done, last_opt (sweep max_gap done todo) = last_opt (done ++ todo).
Proof.
  induction todo as [| x todo IH]; intros done; simpl.
  - rewrite app_nil_r. reflexivity.
  - rewrite IH, <- app_assoc. simpl. rewrite !last_opt_app_cons. reflexivity.
Qed.

Lemma sweep_app (todo todo' : list Q) :
  forall done,
    sweep max_gap done (todo ++ todo')
    = sweep max_gap (sweep max_gap done todo) todo'.
Proof.
  induction todo as [| x todo IH]; intros done; simpl; [ reflexivity | ].
  apply IH.
Qed.

(** A uniform shift keeps gaps and order. *)
Lemma shift_gap (delta : Q) (x y : Q) :
  gap_within max_gap x y ->
  gap_within max_gap (shift_by max_gap delta x) (shift_by max_gap delta y).
Proof. unfold gap_within, shift_by. intros H. lra. Qed.

Lemma shift_le (delta : Q) (x y : Q) :
  x <= y -> shift_by max_gap delta x <= shift_by max_gap delta y.
Proof. unfold shift_by. intros H. lra. Qed.

(** One step of the loop: the rewritten slice followed by [x]. *)
Lemma step_gaps (pre : list Q) (y x : Q) :
  adjacent (gap_within max_gap) (pre ++ [y]) ->
  adjacent (gap_within max_gap)
    ((if Qlt_bool max_gap (x - last (pre ++ [y]) 0)
      then map (shift_by max_gap (x - last (pre ++ [y]) 0)) (pre ++ [y])
      else pre ++ [y]) ++ [x]).
Proof.
  intros H. rewrite last_last.
  destruct (Qlt_bool max_gap (x - y)) eqn:E.
  - apply adjacent_map_snoc. split.
    + apply adjacent_map; [ apply shift_gap | exact H ].
    + unfold gap_within, shift_by. lra.
  - apply adjacent_snoc. split; [ exact H | ].
    apply Qlt_bool_false in E. exact E.
Qed.

(** After the loop no gap exceeds [max_gap], whatever the input. *)
Lemma sweep_gaps (todo : list Q) :
  forall done, done <> [] ->
    adjacent (gap_within max_gap) done ->
    adjacent (gap_within max_gap) (sweep max_gap done todo).
Proof.
  induction todo as [| x todo IH]; intros done Hne H; simpl; [ exact H | ].
  destruct (exists_last Hne) as (pre & y & ->).
  apply IH.
  - destruct (if Qlt_bool _ _ then _ else _); discriminate.
  - apply step_gaps. exact H.
Qed.

(** Where no gap exceeds [max_gap] the loop changes nothing. *)
Lemma sweep_fixed (todo : list Q) :
  forall done, done <> [] ->
    adjacent (gap_within max_gap) (done ++ todo) ->
    sweep max_gap done todo = (done ++ todo)%list.
Proof.
  induction todo as [| x todo IH]; intros done Hne H; simpl.
  - symmetry. apply app_nil_r.
  - destruct (exists_last Hne) as (pre & y & ->).
    rewrite last_last.
    assert (Hyx : gap_within max_gap y x).
    { apply adjacent_app in H. destruct H as [H _].
      apply adjacent_snoc in H. apply H. }
    apply Qlt_bool_false in Hyx. rewrite Hyx.
    rewrite IH; rewrite <- ?app_assoc; simpl; try reflexivity.
    + destruct pre; discriminate.
    + rewrite <- app_assoc in H. exact H.
Qed.

(** With a threshold that is not negative the loop keeps the order. *)
Lemma sweep_sorted (todo : list Q) :
  0 <= max_gap ->
  forall done, done <> [] ->
    adjacent Qle (done ++ todo) ->
    adjacent Qle (sweep max_gap done todo).
Proof.
  intros Hgap.
  induction todo as [| x todo IH]; intros done Hne H; simpl.
  - rewrite app_nil_r in H. exact H.
  - destruct (exists_last Hne) as (pre & y & ->).
    rewrite last_last.
    apply adjacent_app in H. destruct H as [H Hx].
    apply adjacent_snoc in H. destruct H as [H Hyx].
    apply IH.
    + destruct (if Qlt_bool _ _ then _ else _); discriminate.
    + rewrite <- app_assoc. simpl. apply adjacent_app. split; [ | exact Hx ].
      destruct (Qlt_bool max_gap (x - y)) eqn:E.
      * apply adjacent_map_snoc. split.
        -- apply adjacent_map; [ apply shift_le | exact H ].
        -- lra.
      * apply adjacent_snoc. split; assumption.
Qed.

End Compression.

(* ================================================================== *)
(** * The compressed timeline: length, order, gaps, last entry *)

Lemma zip_timeline_length (max_gap : Q) (tl : list Q) :
  List.length (zip_timeline max_gap tl) = List.length tl.
Proof.
  destruct tl as [| a l]; [ reflexivity | ].
  rewrite zip_timeline_sweep, sweep_length. reflexivity.
Qed.

Lemma zip_timeline_last (max_gap : Q) (tl : list Q) :
  last_opt (zip_timeline max_gap tl) = last_opt tl.
Proof.
  destruct tl as [| a l]; [ reflexivity | ].
  rewrite zip_timeline_sweep, sweep_last. reflexivity.
Qed.

Lemma zip_timeline_gaps (max_gap : Q) (tl : list Q) :
  adjacent (gap_within max_gap) (zip_timeline max_gap tl).
Proof.
  destruct tl as [| a l]; [ exact I | ].
  rewrite zip_timeline_sweep. apply sweep_gaps; [ discriminate | exact I ].
Qed.

Lemma zip_timeline_fixed (max_gap : Q) (tl : list Q) :
  adjacent (gap_within max_gap) tl -> zip_timeline max_gap tl = tl.
Proof.
  destruct tl as [| a l]; [ reflexivity | ]. intros H.
  rewrite zip_timeline_sweep. apply (sweep_fixed max_gap l [a]);
    [ discriminate | exact H ].
Qed.

Lemma last_opt_map {A B : Type} (f : A -> B) (l : list A) :
  last_opt (map f l) = option_map f (last_opt l).
Proof.
  induction l as [| a [| b l] IH]; try reflexivity. exact IH.
Qed.

Lemma timeline_zipped_length (timeline : list Z) :
  List.length (timeline_zipped timeline) = List.length timeline.
Proof.
  unfold timeline_zipped. rewrite zip_timeline_length. apply length_map.
Qed.

Lemma timeline_zipped_last (timeline : list Z) :
  last_opt (timeline_zipped timeline) = option_map inject_Z (last_opt timeline).
Proof.
  unfold timeline_zipped. rewrite zip_timeline_last. apply last_opt_map.
Qed.

(** C7: for every non-decreasing sequence of timestamps the compressed
    sequence has the length of the input and is non-decreasing, at every
    threshold that is not negative: the script compresses at the one
    threshold [MAX_GAP], which is 720 seconds. *)
Theorem zip_timeline_sorted (max_gap : Q) (tl : list Q) :
  0 <= max_gap ->
  adjacent Qle tl ->
  List.length (zip_timeline max_gap tl) = List.length tl
  /\ adjacent Qle (zip_timeline max_gap tl).
Proof.
  intros Hgap Hsorted. split; [ apply zip_timeline_length | ].
  destruct tl as [| a l]; [ exact I | ].
  rewrite zip_timeline_sweep.
  apply sweep_sorted; [ exact Hgap | discriminate | exact Hsorted ].
Qed.

Lemma zip_timeline_sorted_witness :
  List.length (timeline_zipped [0; 1000; 2000; 2100; 20100]%Z) = 5%nat
  /\ adjacent Qle (timeline_zipped [0; 1000; 2000; 2100; 20100]%Z).
Proof.
  apply (zip_timeline_sorted MAX_GAP
           (map inject_Z [0; 1000; 2000; 2100; 20100]%Z)).
  - vm_compute. discriminate.
  - simpl. repeat split; vm_compute; discriminate.
Defined.

(** C8: after one pass no gap between neighbours exceeds the threshold,
    and a second pass with the same threshold changes nothing. *)
Theorem zip_timeline_idempotent (max_gap : Q) (tl : list Q) :
  adjacent (gap_within max_gap) (zip_timeline max_gap tl)
  /\ zip_timeline max_gap (zip_timeline max_gap tl) = zip_timeline max_gap tl.
Proof.
  split; [ apply zip_timeline_gaps | ].
  apply zip_timeline_fixed, zip_timeline_gaps.
Qed.

(** C10: the loop never rewrites the last entry, so the last entry of the
    compressed timeline is the last raw timestamp, and in compressed mode
    [format] measures the plot range from it. *)
Theorem timeline_zipped_keeps_last :
  (forall timeline : list Z,
      last_opt (timeline_zipped timeline)
      = option_map inject_Z (last_opt timeline))
  /\ (forall d timestamp_now compress' relative' min_max_history self self',
         format d timestamp_now compress' relative' min_max_history self
         = Ok self' ->
         compress self' = true ->
         exists t : Z,
           last_opt (timeline d) = Some t
           /\ plot_range self'
              = (inject_Z t - hours_in_seconds (snd min_max_history),
                 inject_Z t - hours_in_seconds (fst min_max_history))).
Proof.
  split; [ exact timeline_zipped_last | ].
  intros d timestamp_now compress' relative' mm self self' H Hc.
  unfold format in H.
  set (c := match compress' with Some v => v | None => compress self end) in *.
  assert (Ec : c = true).
  { destruct c eqn:E; [ reflexivity | ]. simpl in H.
    apply bind_Ok in H. destruct H as (? & _ & H).
    injection H as <-. simpl in Hc. congruence. }
  rewrite Ec in H. unfold index_last in H.
  rewrite timeline_zipped_last in H.
  destruct (last_opt (timeline d)) as [t |]; [ | discriminate ].
  simpl in H. apply bind_Ok in H. destruct H as (? & _ & H).
  injection H as <-. exists t. split; reflexivity.
Qed.

Lemma timeline_zipped_keeps_last_witness :
  last_opt (timeline_zipped (timeline sample_data))
  = option_map inject_Z (last_opt (timeline sample_data))
  /\ exists self' t,
       format sample_data 0 None None
              (DEFAULT_HISTORY_MIN, DEFAULT_HISTORY_MAX) initial_stat
       = Ok self'
       /\ last_opt (timeline sample_data) = Some t
       /\ plot_range self'
          = (inject_Z t - hours_in_seconds DEFAULT_HISTORY_MAX,
             inject_Z t - hours_in_seconds DEFAULT_HISTORY_MIN).
Proof.
  split.
  - apply (proj1 timeline_zipped_keeps_last).
  - assert (E : exists self',
               format sample_data 0 None None
                      (DEFAULT_HISTORY_MIN, DEFAULT_HISTORY_MAX) initial_stat
               = Ok self' /\ compress self' = true)
      by (vm_compute; eexists; split; reflexivity).
    destruct E as (self' & E & Hc).
    destruct (proj2 timeline_zipped_keeps_last _ _ _ _ _ _ _ E Hc)
      as (t & Ht & Hr).
    exists self', t. repeat split; assumption.
Defined.

Lemma last_opt_Some {A : Type} (l : list A) (a : A) :
  last_opt l = Some a -> exists pre, l = pre ++ [a].
Proof.
  intros H. destruct l as [| x l]; [ discriminate | ].
  assert (Hne : x :: l <> []) by discriminate.
  destruct (exists_last Hne) as (pre & y & E). rewrite E in *.
  rewrite last_opt_app_cons in H. injection H as ->. eauto.
Qed.

Lemma Forall2_map_right {A B : Type} (R : A -> B -> Prop) (f : A -> B)
    (l : list A) :
  (forall x, R x (f x)) -> Forall2 R l (map f l).
Proof. intros H. induction l; simpl; constructor; auto. Qed.

(** C9: in a series whose only gap above the threshold of 0.2 hours is
    one of 5 hours, every timestamp before the gap moves forward by
    4.8 hours, the gap becomes the threshold, and the timestamps from the
    gap on stay as they are. *)
Theorem one_gap_of_five_hours (before after : list Q) (a b : Q) :
  last_opt before = Some a ->
  hd_error after = Some b ->
  b - a == 5 * AN_HOUR ->
  adjacent (gap_within MAX_GAP) before ->
  adjacent (gap_within MAX_GAP) after ->
  exists shifted,
    zip_timeline MAX_GAP (before ++ after) = shifted ++ after
    /\ Forall2 (fun t t' => t' == t + 4.8 * AN_HOUR) before shifted
    /\ exists a', last_opt shifted = Some a' /\ b - a' == MAX_GAP.
Proof.
  intros Ha Hb Hgap Hbefore Hafter.
  destruct (last_opt_Some _ _ Ha) as (pre & ->).
  destruct after as [| b' after]; [ discriminate | ].
  injection Hb as ->.
  set (shift := fun timestamp => timestamp + (b - a) - MAX_GAP).
  exists (map shift (pre ++ [a])).
  assert (Hlt : Qlt_bool MAX_GAP (b - a) = true).
  { apply Qlt_bool_iff. rewrite Hgap. reflexivity. }
  assert (Hshift : forall t, shift t == t + 4.8 * AN_HOUR).
  { intros t. unfold shift, MAX_GAP, AN_HOUR in *. lra. }
  split; [ | split ].
  - destruct (pre ++ [a]) as [| a0 l0] eqn:E;
      [ destruct pre; discriminate | ].
    change ((a0 :: l0) ++ b :: after) with (a0 :: (l0 ++ b :: after)).
    rewrite zip_timeline_sweep, sweep_app.
    rewrite (sweep_fixed MAX_GAP l0 [a0]) by (discriminate || exact Hbefore).
    change ([a0] ++ l0) with (a0 :: l0). rewrite <- E. simpl sweep.
    rewrite last_last, Hlt. fold shift.
    rewrite sweep_fixed; [ rewrite <- app_assoc; reflexivity | | ].
    + destruct (map shift (pre ++ [a])); discriminate.
    + rewrite <- app_assoc. simpl app. apply adjacent_app.
      split; [ | exact Hafter ].
      apply adjacent_map_snoc. split.
      * apply adjacent_map; [ | rewrite E; exact Hbefore ].
        intros x y. unfold gap_within, shift. intros H. lra.
      * unfold gap_within, shift. lra.
  - apply Forall2_map_right. exact Hshift.
  - exists (shift a). split.
    + rewrite map_app. simpl map. rewrite last_opt_app_cons. reflexivity.
    + unfold shift. lra.
Qed.

Lemma one_gap_of_five_hours_witness :
  exists shifted,
    zip_timeline MAX_GAP
      (map inject_Z [0; 600; 1200]%Z ++ map inject_Z [19200; 19800]%Z)
    = shifted ++ map inject_Z [19200; 19800]%Z
    /\ Forall2 (fun t t' => t' == t + 4.8 * AN_HOUR)
               (map inject_Z [0; 600; 1200]%Z) shifted
    /\ exists a', last_opt shifted = Some a' /\ 19200 - a' == MAX_GAP.
Proof.
  apply (one_gap_of_five_hours
           (map inject_Z [0; 600; 1200]%Z) (map inject_Z [19200; 19800]%Z)
           1200 19200).
  - reflexivity.
  - reflexivity.
  - reflexivity.
  - simpl. repeat split; vm_compute; discriminate.
  - simpl. repeat split; vm_compute; discriminate.
Defined.

(* ================================================================== *)
(** * Properties of [analyze] *)

Lemma is_str_iff (v : pyval) (text : string) :
  is_str v text = true <-> v = PStr text.
Proof.
  destruct v as [n | x | s]; simpl;
    try (split; [ discriminate | intros H; discriminate H ]).
  rewrite String.eqb_eq. split; [ intros ->; reflexivity | ].
  intros H. injection H as ->. reflexivity.
Qed.

Lemma truediv_Ok (x y q : Q) :
  truediv x y = Ok q -> Qeq_bool y 0 = false /\ q = x / y.
Proof.
  unfold truediv. destruct (Qeq_bool y 0); [ discriminate | ].
  intros H. injection H as <-. split; reflexivity.
Qed.

Lemma truediv_nonzero (x y : Q) : ~ y == 0 -> truediv x y = Ok (x / y).
Proof.
  intros H. unfold truediv. destruct (Qeq_bool y 0) eqn:E; [ | reflexivity ].
  apply Qeq_bool_iff in E. contradiction.
Qed.

Lemma truediv_zero (x y : Q) : y == 0 -> truediv x y = Err ZeroDivisionError.
Proof.
  intros H. unfold truediv. apply Qeq_bool_iff in H. rewrite H. reflexivity.
Qed.

Lemma Qabs_zero (x : Q) : Qabs x == 0 -> x == 0.
Proof.
  apply Qabs_case; intros Hx H; lra.
Qed.

Lemma no_trend_guard_true (self : BatteryStat) :
  no_trend_guard self = true
  <-> (List.length (self_timeline self) <= 2)%nat
      \/ (~ non_decreasing (self_charge_data self)
          /\ ~ non_increasing (self_charge_data self)).
Proof.
  unfold no_trend_guard, non_decreasing, non_increasing.
  rewrite orb_true_iff, andb_true_iff, !negb_true_iff, Nat.leb_le.
  rewrite <- !not_true_iff_false.
  rewrite (all_adjacent_spec Qle_bool Qle _ Qle_bool_iff).
  rewrite (all_adjacent_spec Qge_bool (fun x y => y <= x) _ Qge_bool_iff).
  reflexivity.
Qed.

Lemma no_trend_guard_false (self : BatteryStat) :
  no_trend_guard self = false
  <-> (3 <= List.length (self_timeline self))%nat
      /\ monotonic (self_charge_data self).
Proof.
  unfold no_trend_guard, monotonic, non_decreasing, non_increasing.
  rewrite orb_false_iff, andb_false_iff, !negb_false_iff, Nat.leb_gt.
  rewrite (all_adjacent_spec Qle_bool Qle _ Qle_bool_iff).
  rewrite (all_adjacent_spec Qge_bool (fun x y => y <= x) _ Qge_bool_iff).
  reflexivity.
Qed.

Lemma analyze_guarded (d : Data) (self : BatteryStat) :
  no_trend_guard self = true -> analyze d self = Ok NoTrend.
Proof.
  unfold analyze. intros ->. reflexivity.
Qed.

(** Past the guard [analyze] shows statistics or raises. *)
Lemma analyze_past_guard (d : Data) (self : BatteryStat) :
  no_trend_guard self = false -> analyze d self <> Ok NoTrend.
Proof.
  unfold analyze. intros -> H.
  apply bind_Ok in H. destruct H as (? & _ & H). discriminate.
Qed.

(** C5: [analyze] shows no trend exactly when the window has fewer than
    three samples or its charges are neither non-decreasing throughout nor
    non-increasing throughout; so does every window of two samples, and
    every window with the charges 10, 20, 15. *)
Theorem analyze_no_trend_iff (d : Data) (self : BatteryStat) :
  (analyze d self = Ok NoTrend
   <-> (List.length (self_timeline self) < 3)%nat
       \/ (~ non_decreasing (self_charge_data self)
           /\ ~ non_increasing (self_charge_data self)))
  /\ (forall cmp rel range t1 t2 c1 c2,
         analyze d (mkStat cmp rel range [t1; t2] [c1; c2]) = Ok NoTrend)
  /\ (forall cmp rel range window,
         analyze d (mkStat cmp rel range window [10; 20; 15]) = Ok NoTrend).
Proof.
  split; [ | split ].
  - assert (Hlt : (List.length (self_timeline self) < 3)%nat
                  <-> (List.length (self_timeline self) <= 2)%nat) by lia.
    rewrite Hlt, <- no_trend_guard_true. split.
    + intros H. destruct (no_trend_guard self) eqn:E; [ reflexivity | ].
      exfalso. exact (analyze_past_guard d self E H).
    + apply analyze_guarded.
  - intros. apply analyze_guarded. reflexivity.
  - intros. apply analyze_guarded. unfold no_trend_guard.
    apply orb_true_iff. right. reflexivity.
Qed.

Lemma analyze_Trend (d : Data) (self : BatteryStat) (s : Statistics) :
  analyze d self = Ok (Trend s) ->
  no_trend_guard self = false /\ statistics d self = Ok s.
Proof.
  unfold analyze. destruct (no_trend_guard self); [ discriminate | ].
  intros H. apply bind_Ok in H. destruct H as (s' & Hs & H).
  injection H as <-. split; [ reflexivity | exact Hs ].
Qed.

Lemma AN_HOUR_nonzero : Qeq_bool AN_HOUR 0 = false.
Proof. reflexivity. Qed.

(** What [statistics] returns, read off a successful run. *)
Lemma statistics_Ok (d : Data) (self : BatteryStat) (s : Statistics) :
  statistics d self = Ok s ->
  exists t_last t_first c_last c_first last_line,
    index_last (self_timeline self) = Ok t_last
    /\ index (self_timeline self) 0 = Ok t_first
    /\ index_last (self_charge_data self) = Ok c_last
    /\ index (self_charge_data self) 0 = Ok c_first
    /\ index_last (data_sheet d) = Ok last_line
    /\ rate s = (c_last - c_first) / ((t_last - t_first) / AN_HOUR)
    /\ Qeq_bool (Qabs (rate s)) 0 = false
    /\ life s = inject_Z BATTERY_MAX_CHARGE / Qabs (rate s)
    /\ full_life s = 100 / Qabs (rate s)
    /\ left s
       = if is_str (row_last last_line) "discharging"
         then Some (current_charge d / Qabs (rate s))
         else if is_str (row_last last_line) "charging"
              then Some ((inject_Z BATTERY_MAX_CHARGE - current_charge d)
                         / Qabs (rate s))
              else None.
Proof.
  unfold statistics. intros H.
  apply bind_Ok in H. destruct H as (t_last & Htl & H).
  apply bind_Ok in H. destruct H as (t_first & Htf & H).
  apply bind_Ok in H. destruct H as (t_range & Hrange & H).
  apply bind_Ok in H. destruct H as (c_last & Hcl & H).
  apply bind_Ok in H. destruct H as (c_first & Hcf & H).
  apply bind_Ok in H. destruct H as (r & Hr & H).
  apply bind_Ok in H. destruct H as (l & Hl & H).
  apply bind_Ok in H. destruct H as (f & Hf & H).
  apply bind_Ok in H. destruct H as (last_line & Hrow & H).
  apply bind_Ok in H. destruct H as (rem & Hrem & H).
  injection H as <-. simpl.
  apply truediv_Ok in Hrange. destruct Hrange as [_ ->].
  apply truediv_Ok in Hr. destruct Hr as [_ Hr].
  apply truediv_Ok in Hl. destruct Hl as [Hnz ->].
  apply truediv_Ok in Hf. destruct Hf as [_ ->].
  exists t_last, t_first, c_last, c_first, last_line.
  repeat (split; [ assumption || reflexivity | ]).
  unfold truediv in Hrem. rewrite Hnz in Hrem. simpl in Hrem.
  destruct (is_str (row_last last_line) "discharging");
    [ injection Hrem as <-; reflexivity | ].
  destruct (is_str (row_last last_line) "charging");
    injection Hrem as <-; reflexivity.
Qed.

(** Rows that hold a time and a charge and nothing else, which is how
    lines 72-77 build them, give [analyze] no status to read. *)
Lemma no_remaining_without_status (d : Data) (self : BatteryStat)
    (s : Statistics) :
  Forall (fun line => rest line = []) (data_sheet d) ->
  analyze d self = Ok (Trend s) ->
  left s = None.
Proof.
  intros Hrows H. apply analyze_Trend in H. destruct H as [_ H].
  apply statistics_Ok in H.
  destruct H as (t_last & t_first & c_last & c_first & last_line & H).
  destruct H as (_ & _ & _ & _ & Hrow & _ & _ & _ & _ & ->).
  assert (Hrest : rest last_line = []).
  { unfold index_last in Hrow.
    destruct (last_opt (data_sheet d)) as [r |] eqn:E; [ | discriminate ].
    injection Hrow as ->.
    destruct (last_opt_Some _ _ E) as (pre & Epre).
    rewrite Forall_forall in Hrows. apply Hrows.
    rewrite Epre. apply in_or_app. right. left. reflexivity. }
  unfold row_last. rewrite Hrest. reflexivity.
Qed.



Lemma index_0_cons {A : Type} (l : list A) :
  l <> [] -> exists x, index l 0 = Ok x.
Proof.
  destruct l as [| x l]; [ congruence | ]. intros _. exists x. reflexivity.
Qed.

Lemma index_last_cons {A : Type} (l : list A) :
  l <> [] -> exists x, index_last l = Ok x.
Proof.
  intros H. unfold index_last. destruct (last_opt l) as [x |] eqn:E.
  - exists x. reflexivity.
  - apply last_opt_None in E. contradiction.
Qed.

Lemma nonempty_of_length {A : Type} (l : list A) (n : nat) :
  (S n <= List.length l)%nat -> l <> [].
Proof. destruct l; simpl; [ lia | discriminate ]. Qed.

(** With a time range of zero the rate cannot be computed. *)
Lemma statistics_zero_range (d : Data) (self : BatteryStat)
    (t_first t_last : Q) :
  index (self_timeline self) 0 = Ok t_first ->
  index_last (self_timeline self) = Ok t_last ->
  t_last == t_first ->
  self_charge_data self <> [] ->
  statistics d self = Err ZeroDivisionError.
Proof.
  intros Htf Htl Heq Hne. unfold statistics. rewrite Htl, Htf.
  destruct (index_last_cons _ Hne) as (c_last & ->).
  destruct (index_0_cons _ Hne) as (c_first & ->).
  cbv beta iota delta [bind].
  unfold truediv at 1. rewrite AN_HOUR_nonzero.
  rewrite truediv_zero; [ reflexivity | ].
  rewrite Heq. unfold Qminus. rewrite Qplus_opp_r. reflexivity.
Qed.

(** C3, amended: for a window of three samples or more whose first and
    last timestamps are equal, [analyze] shows no trend when the charges
    are not monotonic, and raises [ZeroDivisionError] when they are. *)
Theorem analyze_zero_range (d : Data) (self : BatteryStat)
    (t_first t_last : Q) :
  (3 <= List.length (self_timeline self))%nat ->
  List.length (self_charge_data self) = List.length (self_timeline self) ->
  index (self_timeline self) 0 = Ok t_first ->
  index_last (self_timeline self) = Ok t_last ->
  t_last == t_first ->
  (~ monotonic (self_charge_data self) -> analyze d self = Ok NoTrend)
  /\ (monotonic (self_charge_data self) ->
      analyze d self = Err ZeroDivisionError).
Proof.
  intros Hlen Hsame Htf Htl Heq. split.
  - intros Hmono. apply analyze_guarded. apply no_trend_guard_true. right.
    unfold monotonic in Hmono. tauto.
  - intros Hmono. unfold analyze.
    rewrite (proj2 (no_trend_guard_false self) (conj Hlen Hmono)).
    rewrite (statistics_zero_range d self t_first t_last Htf Htl Heq);
      [ reflexivity | ].
    apply (nonempty_of_length _ 2). rewrite Hsame. exact Hlen.
Qed.

Lemma analyze_zero_range_witness :
  analyze sample_data (mkStat true true (0, 0) [5; 5; 5] [10; 20; 15])
  = Ok NoTrend
  /\ analyze sample_data (mkStat true true (0, 0) [5; 5; 5] [10; 10; 10])
     = Err ZeroDivisionError.
Proof.
  assert (Hlen : (3 <= 3)%nat) by lia.
  assert (Heq : 5 == 5) by reflexivity.
  split.
  - apply (proj1 (analyze_zero_range sample_data
                    (mkStat true true (0, 0) [5; 5; 5] [10; 20; 15]) 5 5
                    Hlen eq_refl eq_refl eq_refl Heq)).
    intros [H | H]; simpl in H; destruct H as (H1 & H2 & _).
    + vm_compute in H2. apply H2. reflexivity.
    + vm_compute in H1. apply H1. reflexivity.
  - apply (proj2 (analyze_zero_range sample_data
                    (mkStat true true (0, 0) [5; 5; 5] [10; 10; 10]) 5 5
                    Hlen eq_refl eq_refl eq_refl Heq)).
    left. simpl. repeat split; vm_compute; discriminate.
Defined.

(** C3, as stated, fails: three samples taken at the same second with
    equal charges make [analyze] raise, not show the no-trend title. *)
Lemma analyze_zero_range_raises :
  (3 <= List.length [5; 5; 5])%nat
  /\ index [5; 5; 5] 0 = index_last [5; 5; 5]
  /\ analyze sample_data (mkStat true true (0, 0) [5; 5; 5] [10; 10; 10])
     = Err ZeroDivisionError.
Proof. repeat split. simpl. lia. Qed.

Lemma Qdiv_nonzero (x y : Q) : ~ x == 0 -> ~ y == 0 -> ~ x / y == 0.
Proof.
  intros Hx Hy H. apply Hx.
  rewrite <- (Qmult_div_r x y Hy), H. apply Qmult_0_r.
Qed.

(** What [statistics] returns when neither the time range nor the change
    of charge is zero. *)
Lemma statistics_value (d : Data) (self : BatteryStat)
    (t_first t_last c_first c_last : Q) (last_line : row) :
  index (self_timeline self) 0 = Ok t_first ->
  index_last (self_timeline self) = Ok t_last ->
  index (self_charge_data self) 0 = Ok c_first ->
  index_last (self_charge_data self) = Ok c_last ->
  index_last (data_sheet d) = Ok last_line ->
  ~ t_last == t_first ->
  ~ c_last == c_first ->
  exists s,
    statistics d self = Ok s
    /\ rate s = (c_last - c_first) / ((t_last - t_first) / AN_HOUR)
    /\ life s = inject_Z BATTERY_MAX_CHARGE / Qabs (rate s)
    /\ full_life s = 100 / Qabs (rate s).
Proof.
  intros Htf Htl Hcf Hcl Hrow Ht Hc.
  set (t_range := (t_last - t_first) / AN_HOUR).
  set (r := (c_last - c_first) / t_range).
  assert (Hrange : ~ t_range == 0).
  { apply Qdiv_nonzero; [ intros H; apply Ht; lra | discriminate ]. }
  assert (Hr : ~ Qabs r == 0).
  { intros H. apply Qabs_zero in H. revert H.
    apply Qdiv_nonzero; [ intros H; apply Hc; lra | exact Hrange ]. }
  unfold statistics. rewrite Htl, Htf, Hcl, Hcf, Hrow. cbn [bind].
  unfold truediv at 1. rewrite AN_HOUR_nonzero. cbn [bind]. fold t_range.
  rewrite (truediv_nonzero _ t_range Hrange). cbn [bind]. fold r.
  rewrite !(truediv_nonzero _ (Qabs r) Hr). cbn [bind].
  destruct (is_str (row_last last_line) "discharging");
    [ | destruct (is_str (row_last last_line) "charging") ];
    cbn [bind]; eexists; (split; [ reflexivity | ]);
    simpl; repeat split; reflexivity.
Qed.

(** C6, amended: for a monotonic window of three samples or more whose
    time range is positive and whose first and last charges differ,
    [analyze] shows the rate (last charge minus first charge, over the
    time range in hours), the life (maximum charge over the absolute rate)
    and the full life (100 over the absolute rate); on the three samples
    10, 20, 30 taken an hour apart the rate is 10 per hour. *)
Theorem trend_statistics (d : Data) :
  prepared d ->
  (forall self t_first t_last c_first c_last,
      (3 <= List.length (self_timeline self))%nat ->
      monotonic (self_charge_data self) ->
      index (self_timeline self) 0 = Ok t_first ->
      index_last (self_timeline self) = Ok t_last ->
      index (self_charge_data self) 0 = Ok c_first ->
      index_last (self_charge_data self) = Ok c_last ->
      t_first < t_last ->
      ~ c_last == c_first ->
      exists s,
        analyze d self = Ok (Trend s)
        /\ rate s = (c_last - c_first) / ((t_last - t_first) / AN_HOUR)
        /\ life s = inject_Z BATTERY_MAX_CHARGE / Qabs (rate s)
        /\ full_life s = 100 / Qabs (rate s))
  /\ (forall cmp rel range t0,
         exists s,
           analyze d (mkStat cmp rel range
                             [t0; t0 + 3600; t0 + 7200] [10; 20; 30])
           = Ok (Trend s)
           /\ rate s == 10).
Proof.
  intros (Hsheet & _).
  destruct (index_last_cons _ Hsheet) as (last_line & Hrow).
  assert (General : forall self t_first t_last c_first c_last,
      (3 <= List.length (self_timeline self))%nat ->
      monotonic (self_charge_data self) ->
      index (self_timeline self) 0 = Ok t_first ->
      index_last (self_timeline self) = Ok t_last ->
      index (self_charge_data self) 0 = Ok c_first ->
      index_last (self_charge_data self) = Ok c_last ->
      t_first < t_last ->
      ~ c_last == c_first ->
      exists s,
        analyze d self = Ok (Trend s)
        /\ rate s = (c_last - c_first) / ((t_last - t_first) / AN_HOUR)
        /\ life s = inject_Z BATTERY_MAX_CHARGE / Qabs (rate s)
        /\ full_life s = 100 / Qabs (rate s)).
  { intros self t_first t_last c_first c_last Hlen Hmono Htf Htl Hcf Hcl Ht Hc.
    assert (Ht' : ~ t_last == t_first) by (intros H; lra).
    destruct (statistics_value d self t_first t_last c_first c_last last_line
                Htf Htl Hcf Hcl Hrow Ht' Hc) as (s & Hs & Hstats).
    exists s. split; [ | exact Hstats ].
    unfold analyze.
    rewrite (proj2 (no_trend_guard_false self) (conj Hlen Hmono)), Hs.
    reflexivity. }
  split; [ exact General | ].
  intros cmp rel range t0.
  destruct (General (mkStat cmp rel range [t0; t0 + 3600; t0 + 7200]
                            [10; 20; 30])
                    t0 (t0 + 7200) 10 30) as (s & Hs & Hrate & _).
  - simpl. lia.
  - left. unfold non_decreasing. simpl. repeat split; vm_compute; discriminate.
  - reflexivity.
  - reflexivity.
  - reflexivity.
  - reflexivity.
  - lra.
  - intros H. vm_compute in H. discriminate.
  - exists s. split; [ exact Hs | ].
    rewrite Hrate. simpl self_timeline.
    setoid_replace (t0 + 7200 - t0) with 7200 by ring.
    reflexivity.
Qed.

Lemma sample_data_prepared : prepared sample_data.
Proof.
  unfold prepared. repeat split; try reflexivity. discriminate.
Qed.

Lemma trend_statistics_witness :
  exists s,
    analyze sample_data
      (mkStat true true (0, 0)
              [1600000000; 1600000000 + 3600; 1600000000 + 7200]
              [10; 20; 30])
    = Ok (Trend s)
    /\ rate s == 10.
Proof.
  apply (proj2 (trend_statistics sample_data sample_data_prepared)).
Defined.

(** C6, as stated, fails on a flat window: the charges are monotonic and
    the time range is positive, the rate is zero, and the life cannot be
    computed. *)
Lemma flat_window_raises :
  prepared sample_data
  /\ monotonic [50; 50; 50]
  /\ index [0; 3600; 7200] 0 = Ok 0
  /\ index_last [0; 3600; 7200] = Ok 7200
  /\ 0 < 7200
  /\ analyze sample_data
       (mkStat true true (0, 0) [0; 3600; 7200] [50; 50; 50])
     = Err ZeroDivisionError.
Proof.
  split; [ exact sample_data_prepared | ].
  split; [ left; unfold non_decreasing; simpl;
           repeat split; vm_compute; discriminate | ].
  repeat split.
Qed.

(* ================================================================== *)
(** * The rounding of [timedelta] *)




Lemma round_half_even_floor (x : Q) :
  (Qfloor x <= round_half_even x <= Qfloor x + 1)%Z.
Proof.
  unfold round_half_even.
  destruct (Qcompare (x - inject_Z (Qfloor x)) (1 # 2));
    [ destruct (Z.even (Qfloor x)) | | ]; lia.
Qed.


Lemma round_half_even_mono (x y : Q) :
  x <= y -> (round_half_even x <= round_half_even y)%Z.
Proof.
  intros Hxy.
  pose proof (Qfloor_resp_le _ _ Hxy) as Hfloor.
  destruct (Z.eq_dec (Qfloor x) (Qfloor y)) as [E | E].
  - unfold round_half_even. rewrite E.
    destruct (Qcompare_spec (x - inject_Z (Qfloor y)) (1 # 2))
      as [Ex | Ex | Ex];
      destruct (Qcompare_spec (y - inject_Z (Qfloor y)) (1 # 2))
        as [Ey | Ey | Ey];
      try destruct (Z.even (Qfloor y)); try lia; exfalso; lra.
  - pose proof (round_half_even_floor x). pose proof (round_half_even_floor y).
    lia.
Qed.

Lemma round_half_even_Z (n : Z) : round_half_even (inject_Z n) = n.
Proof.
  unfold round_half_even. rewrite Qfloor_Z.
  destruct (Qcompare_spec (inject_Z n - inject_Z n) (1 # 2)) as [E | E | E];
    [ exfalso; lra | reflexivity | exfalso; lra ].
Qed.


(** More hours are not fewer seconds. *)
Lemma hours_in_seconds_mono (hours hours' : Q) :
  hours <= hours' -> hours_in_seconds hours <= hours_in_seconds hours'.
Proof.
  intros H. unfold hours_in_seconds.
  assert (Hr : inject_Z (round_half_even (hours * AN_HOUR * 1000000))
               <= inject_Z (round_half_even (hours' * AN_HOUR * 1000000))).
  { rewrite <- Zle_Qle. apply round_half_even_mono.
    unfold AN_HOUR. lra. }
  unfold Qdiv. apply Qmult_le_compat_r; [ exact Hr | discriminate ].
Qed.

Lemma hours_in_seconds_0 : hours_in_seconds 0 == 0.
Proof. reflexivity. Qed.



(* ================================================================== *)
(** * Properties of [format] *)

Lemma prepared_columns (d : Data) :
  prepared d ->
  List.length (charge_data d) = List.length (timeline d)
  /\ exists t, last_opt (timeline d) = Some t.
Proof.
  intros (Hsheet & Htl & Hcd & _). split.
  - rewrite Htl, Hcd, !length_map. reflexivity.
  - destruct (last_opt (timeline d)) as [t |] eqn:E; [ eauto | ].
    apply last_opt_None in E. rewrite Htl in E.
    destruct (data_sheet d); [ congruence | discriminate ].
Qed.

Lemma new_data_from_total (d : Data) (t_start t_end : Q) (tl : list Q) :
  forall idx,
    (idx + List.length tl <= List.length (charge_data d))%nat ->
    exists l, new_data_from d t_start t_end idx tl = Ok l.
Proof.
  induction tl as [| time tl IH]; intros idx H; simpl.
  - exists []. reflexivity.
  - simpl in H.
    destruct (IH (S idx)) as (more & Hmore); [ lia | ].
    destruct (Qle_bool t_start time && Qle_bool time t_end)%bool;
      [ | eauto ].
    unfold index. destruct (nth_error (charge_data d) idx) as [c |] eqn:E.
    + simpl. rewrite Hmore. simpl. eauto.
    + apply nth_error_None in E. lia.
Qed.

(** On prepared data [format] returns, with the flags asked for and the
    plot range measured back from [now]. *)
Lemma format_total (d : Data) :
  prepared d ->
  forall timestamp_now compress' relative' min_max_history self,
  exists self' now,
    format d timestamp_now compress' relative' min_max_history self = Ok self'
    /\ compress self'
       = match compress' with Some v => v | None => compress self end
    /\ relative self'
       = match relative' with Some v => v | None => relative self end
    /\ plot_range self'
       = (now - hours_in_seconds (snd min_max_history),
          now - hours_in_seconds (fst min_max_history)).
Proof.
  intros Hd timestamp_now compress' relative' mm self.
  destruct (prepared_columns d Hd) as (Hlen & t & Ht).
  unfold format.
  destruct (match compress' with Some v => v | None => compress self end).
  - unfold index_last. rewrite timeline_zipped_last, Ht.
    cbn [option_map of_option bind].
    destruct (new_data_from_total d
                (inject_Z t - hours_in_seconds (snd mm))
                (inject_Z t - hours_in_seconds (fst mm))
                (timeline_zipped (timeline d)) 0) as (l & ->).
    + rewrite timeline_zipped_length. lia.
    + cbn [bind]. eexists. exists (inject_Z t). repeat split.
  - cbn [bind].
    destruct (new_data_from_total d
                (timestamp_now - hours_in_seconds (snd mm))
                (timestamp_now - hours_in_seconds (fst mm))
                (map inject_Z (timeline d)) 0) as (l & ->).
    + rewrite length_map. lia.
    + cbn [bind]. eexists. exists timestamp_now. repeat split.
Qed.

(** The window that [format] leaves has a charge for every timestamp. *)
Lemma format_window (d : Data) (timestamp_now : Q)
    (compress' relative' : option bool) (min_max_history : Q * Q)
    (self self' : BatteryStat) :
  format d timestamp_now compress' relative' min_max_history self = Ok self' ->
  List.length (self_charge_data self') = List.length (self_timeline self').
Proof.
  unfold format. intros H.
  apply bind_Ok in H. destruct H as ((timeline_local & now) & _ & H).
  apply bind_Ok in H. destruct H as (new_data & _ & H).
  injection H as <-. simpl. rewrite !length_map. reflexivity.
Qed.

(* ================================================================== *)
(** * Further properties of the data preparation *)

Section LoadErrors.

Variable py_int : string -> option Z.
Variable py_float : string -> option Q.

Lemma mapM_first_error {A B : Type} (f : A -> result B)
    (good : list A) (bad : A) (more : list A) (e : exn) :
  (forall a, In a good -> exists b, f a = Ok b) ->
  f bad = Err e ->
  mapM f (good ++ bad :: more) = Err e.
Proof.
  intros Hgood Hbad. induction good as [| a good IH]; simpl.
  - rewrite Hbad. reflexivity.
  - destruct (Hgood a (or_introl eq_refl)) as (b & ->). simpl.
    rewrite IH; [ reflexivity | ].
    intros a' Ha'. apply Hgood. right. exact Ha'.
Qed.

Lemma convert_line_error (line : list string) (e : exn) :
  convert_line py_int py_float line = Err e ->
  e = IndexError \/ e = ValueError.
Proof.
  unfold convert_line, index.
  destruct (nth_error line 0) as [a |]; cbn [of_option bind];
    [ | intros H; inversion H; auto ].
  destruct (py_int a); cbn [of_option bind];
    [ | intros H; inversion H; auto ].
  destruct (nth_error line 1) as [b |]; cbn [of_option bind];
    [ | intros H; inversion H; auto ].
  destruct (py_float b); cbn [of_option bind];
    intros H; inversion H; auto.
Qed.

(** X1: whatever the file holds, the data preparation returns no series:
    it raises [IndexError] or [ValueError]. *)
Theorem load_always_raises (data : string) :
  exists e,
    load py_int py_float data = Err e
    /\ (e = IndexError \/ e = ValueError).
Proof.
  unfold load.
  destruct (mapM (convert_line py_int py_float)
                 (map split_tab (splitlines data)))
    as [sheet | e] eqn:E; simpl.
  - destruct sheet as [| r sheet].
    + simpl. eauto.
    + rewrite filterM_status_known_raises;
        [ simpl; eauto | discriminate | ].
      eapply mapM_convert_rest. exact E.
  - exists e. split; [ reflexivity | ].
    clear - E. revert E.
    generalize (map split_tab (splitlines data)). intros lines.
    induction lines as [| line lines IH]; simpl; [ discriminate | ].
    destruct (convert_line py_int py_float line) as [r | e'] eqn:Er; simpl.
    + destruct (mapM (convert_line py_int py_float) lines) as [rs | e''];
        simpl; [ discriminate | ].
      intros H. injection H as <-. apply IH. reflexivity.
    + intros H. injection H as <-. eapply convert_line_error. exact Er.
Qed.

(** X2: the lines are all converted before any status is looked at, so
    the first line that cannot be converted decides the exception: the
    lines after it are not read, and the lines before it, though they have
    no status left to test, do not get to raise. *)
Theorem load_first_bad_line (data : string) (good : list string)
    (bad : string) (more : list string) (e : exn) :
  splitlines data = good ++ bad :: more ->
  Forall (well_formed_line py_int py_float) good ->
  convert_line py_int py_float (split_tab bad) = Err e ->
  load py_int py_float data = Err e.
Proof.
  intros Hlines Hgood Hbad. unfold load.
  rewrite Hlines, map_app. simpl map.
  rewrite (mapM_first_error (convert_line py_int py_float)
             (map split_tab good) (split_tab bad) (map split_tab more) e);
    [ reflexivity | | exact Hbad ].
  intros fields Hin. apply in_map_iff in Hin.
  destruct Hin as (line & <- & Hin).
  rewrite Forall_forall in Hgood.
  apply convert_well_formed_line. apply Hgood. exact Hin.
Qed.

End LoadErrors.

Lemma load_first_bad_line_witness :
  load decimal_int decimal_float
       ("1600000000" ++ String TAB "10.0" ++ String TAB "charging"
        ++ String LF ("sixteen" ++ String TAB "20.0" ++ String TAB "charging"
        ++ String LF ("1600007200" ++ String LF "")))%string
  = Err ValueError.
Proof.
  apply (load_first_bad_line decimal_int decimal_float _
           ["1600000000" ++ String TAB "10.0" ++ String TAB "charging"]%string
           ("sixteen" ++ String TAB "20.0" ++ String TAB "charging")%string
           ["1600007200"%string]).
  - reflexivity.
  - repeat constructor.
    do 4 eexists. split; [ vm_compute; reflexivity | ].
    split; vm_compute; discriminate.
  - reflexivity.
Defined.

(* ================================================================== *)
(** * Properties of the choice of the data file *)

Lemma nth_error_last {A : Type} (l : list A) :
  nth_error l (List.length l - 1) = last_opt l.
Proof.
  induction l as [| a [| b l] IH]; try reflexivity.
  change (last_opt (a :: b :: l)) with (last_opt (b :: l)).
  rewrite <- IH. simpl. rewrite Nat.sub_0_r. reflexivity.
Qed.

Lemma last_opt_In {A : Type} (l : list A) (a : A) :
  last_opt l = Some a -> In a l.
Proof.
  intros H. destruct (last_opt_Some _ _ H) as (pre & ->).
  apply in_or_app. right. left. reflexivity.
Qed.

Section FileChoiceFacts.

Variable File : Type.
Variable py_int : string -> option Z.
Variable data_files : list File.
Variable answers : nat -> option string.

Lemma chosen_index_range (answer : string) (idx : Z) :
  chosen_index py_int data_files answer = Some idx ->
  (0 <= idx < num_data_files data_files)%Z.
Proof.
  unfold chosen_index.
  destruct (if String.eqb answer "" then _ else _) as [n |];
    [ | discriminate ].
  destruct ((0 <=? n - 1)%Z && (n - 1 <? num_data_files data_files)%Z)%bool
    eqn:E; [ | discriminate ].
  intros H. injection H as <-.
  apply andb_true_iff in E. destruct E as [E1 E2].
  apply Z.leb_le in E1. apply Z.ltb_lt in E2. lia.
Qed.

Lemma index_chosen (idx : Z) :
  (0 <= idx < num_data_files data_files)%Z ->
  exists file,
    index data_files (Z.to_nat idx) = Ok file /\ In file data_files.
Proof.
  unfold num_data_files, index. intros H.
  destruct (nth_error data_files (Z.to_nat idx)) as [file |] eqn:E.
  - exists file. split; [ reflexivity | ]. eapply nth_error_In. exact E.
  - apply nth_error_None in E. lia.
Qed.

(** X3: [choose_file] returns the file named by the first answer that is
    accepted, however many answers were turned down before it, as long as
    the depth of the calls allows. *)
Theorem choose_file_first_accepted (turned_down : nat) :
  forall fuel asked answer idx,
    (forall j, (j < turned_down)%nat ->
               exists refused,
                 answers (asked + j) = Some refused
                 /\ chosen_index py_int data_files refused = None) ->
    answers (asked + turned_down) = Some answer ->
    chosen_index py_int data_files answer = Some idx ->
    (turned_down < fuel)%nat ->
    exists file,
      choose_file py_int data_files answers fuel asked = Ok file
      /\ nth_error data_files (Z.to_nat idx) = Some file.
Proof.
  induction turned_down as [| k IH];
    intros fuel asked answer idx Hbad Hanswer Hgood Hfuel.
  - destruct fuel as [| fuel]; [ lia | ]. simpl.
    rewrite Nat.add_0_r in Hanswer. rewrite Hanswer, Hgood.
    destruct (index_chosen idx (chosen_index_range _ _ Hgood))
      as (file & Hfile & _).
    exists file. split; [ exact Hfile | ].
    unfold index in Hfile.
    destruct (nth_error data_files (Z.to_nat idx)); [ | discriminate ].
    injection Hfile as ->. reflexivity.
  - destruct fuel as [| fuel]; [ lia | ]. simpl.
    destruct (Hbad O) as (refused & H0 & Hrefused); [ lia | ].
    rewrite Nat.add_0_r in H0. rewrite H0, Hrefused.
    apply (IH fuel (S asked) answer idx).
    + intros j Hj. replace (S asked + j)%nat with (asked + S j)%nat by lia.
      apply Hbad. lia.
    + replace (S asked + k)%nat with (asked + S k)%nat by lia. exact Hanswer.
    + exact Hgood.
    + lia.
Qed.

Lemma choose_file_In (fuel : nat) :
  forall asked file,
    choose_file py_int data_files answers fuel asked = Ok file ->
    In file data_files.
Proof.
  induction fuel as [| fuel IH]; intros asked file; simpl; [ discriminate | ].
  destruct (answers asked) as [answer |]; [ | discriminate ].
  destruct (chosen_index py_int data_files answer) as [idx |] eqn:E.
  - destruct (index_chosen idx (chosen_index_range _ _ E))
      as (file' & -> & Hin).
    intros H. injection H as <-. exact Hin.
  - apply IH.
Qed.

(** What leaves [choose_file]: the end of the input, at an answer it
    reads, or too many answers turned down. *)
Lemma choose_file_error (fuel : nat) :
  forall asked e,
    choose_file py_int data_files answers fuel asked = Err e ->
    (e = EOFError /\ exists n, (asked <= n)%nat /\ answers n = None)
    \/ e = RecursionError.
Proof.
  induction fuel as [| fuel IH]; intros asked e; simpl.
  - intros H. injection H as <-. right. reflexivity.
  - destruct (answers asked) as [answer |] eqn:Ea.
    + destruct (chosen_index py_int data_files answer) as [idx |] eqn:E.
      * destruct (index_chosen idx (chosen_index_range _ _ E))
          as (file & -> & _).
        discriminate.
      * intros H. apply IH in H.
        destruct H as [(-> & n & Hn & Hnone) | ->]; [ left | right; auto ].
        split; [ reflexivity | ]. exists n. split; [ lia | exact Hnone ].
    + intros H. injection H as <-. left. split; [ reflexivity | ].
      exists asked. split; [ lia | exact Ea ].
Qed.

(** X4: a file that [choose_file] returns is one of the files found.  The
    exceptions that leave it are the [EOFError] of [input], when the input
    ends at an answer that [choose_file] reads, and the [RecursionError]
    of too many answers turned down; the exceptions that line 59 catches
    do not leave it, the read of line 64 being in range. *)
Theorem choose_file_in_data_files (fuel asked : nat) :
  (forall file,
      choose_file py_int data_files answers fuel asked = Ok file ->
      In file data_files)
  /\ (forall e,
         choose_file py_int data_files answers fuel asked = Err e ->
         (e = EOFError /\ exists n, (asked <= n)%nat /\ answers n = None)
         \/ e = RecursionError).
Proof.
  split; [ apply choose_file_In | apply choose_file_error ].
Qed.

(** X5: an empty answer selects the last file, the one that the script
    takes without asking when it is the only one. *)
Theorem choose_file_empty_answer (fuel asked : nat) :
  data_files <> [] ->
  answers asked = Some EmptyString ->
  choose_file py_int data_files answers (S fuel) asked
  = index_last data_files.
Proof.
  intros Hne Hanswer. simpl. rewrite Hanswer. unfold chosen_index.
  simpl String.eqb. cbv iota.
  assert (Hlen : (1 <= num_data_files data_files)%Z).
  { unfold num_data_files. destruct data_files; [ congruence | simpl; lia ]. }
  set (n := num_data_files data_files) in *.
  replace ((0 <=? n - 1)%Z && (n - 1 <? n)%Z)%bool
    with true
    by (symmetry; apply andb_true_iff; split;
        [ apply Z.leb_le | apply Z.ltb_lt ]; lia).
  unfold index, index_last. subst n. unfold num_data_files.
  replace (Z.to_nat (Z.of_nat (List.length data_files) - 1))
    with (List.length data_files - 1)%nat by lia.
  rewrite nth_error_last. reflexivity.
Qed.

(** X6: a number from 1 to the number of files selects the file at that
    place, counted from 1; a number outside these bounds, or an answer
    that [int] refuses, makes [choose_file] ask again. *)
Theorem choose_file_bounds (fuel asked : nat) (answer : string) :
  answers asked = Some answer ->
  answer <> EmptyString ->
  (forall n,
      py_int answer = Some n ->
      (1 <= n <= num_data_files data_files)%Z ->
      choose_file py_int data_files answers (S fuel) asked
      = index data_files (Z.to_nat n - 1))
  /\ (forall n,
         py_int answer = Some n ->
         (n < 1 \/ num_data_files data_files < n)%Z ->
         choose_file py_int data_files answers (S fuel) asked
         = choose_file py_int data_files answers fuel (S asked))
  /\ (py_int answer = None ->
      choose_file py_int data_files answers (S fuel) asked
      = choose_file py_int data_files answers fuel (S asked)).
Proof.
  intros Hread Hanswer.
  assert (Heqb : String.eqb answer "" = false).
  { apply String.eqb_neq. exact Hanswer. }
  repeat split.
  - intros n Hn Hrange. simpl. rewrite Hread.
    unfold chosen_index. rewrite Heqb, Hn.
    replace ((0 <=? n - 1)%Z && (n - 1 <? num_data_files data_files)%Z)%bool
      with true
      by (symmetry; apply andb_true_iff; split;
          [ apply Z.leb_le | apply Z.ltb_lt ]; lia).
    f_equal. lia.
  - intros n Hn Hrange. simpl. rewrite Hread.
    unfold chosen_index. rewrite Heqb, Hn.
    replace ((0 <=? n - 1)%Z && (n - 1 <? num_data_files data_files)%Z)%bool
      with false; [ reflexivity | ].
    symmetry. apply andb_false_iff.
    destruct Hrange; [ left; apply Z.leb_gt | right; apply Z.ltb_ge ]; lia.
  - intros Hn. simpl. rewrite Hread.
    unfold chosen_index. rewrite Heqb, Hn. reflexivity.
Qed.

(** X7: the [exit(1)] of line 37 is reached exactly when no file was
    found; a file the script goes on with is one of the files found; and
    an exception of the choice needs two files or more, since a single
    file is taken without a question, and is the [EOFError] of [input] or
    the [RecursionError] of too many answers turned down. *)
Theorem select_data_file_outcomes (fuel : nat) :
  (select_data_file py_int data_files answers fuel = Exit 1
   <-> data_files = [])
  /\ (forall code,
         select_data_file py_int data_files answers fuel = Exit code ->
         code = 1%Z)
  /\ (forall file,
         select_data_file py_int data_files answers fuel = Selected file ->
         In file data_files)
  /\ (forall e,
         select_data_file py_int data_files answers fuel = Raised e ->
         (e = EOFError \/ e = RecursionError)
         /\ (2 <= List.length data_files)%nat).
Proof.
  unfold select_data_file.
  destruct data_files as [| f files] eqn:Efiles.
  - split; [ split; reflexivity | ].
    split; [ intros code H; injection H as <-; reflexivity | ].
    split; intros x H; discriminate H.
  - rewrite <- Efiles.
    set (chosen := if (num_data_files data_files =? 1)%Z
                   then index_last data_files
                   else choose_file py_int data_files answers fuel 0).
    assert (Hok : forall file, chosen = Ok file -> In file data_files).
    { unfold chosen. intros file.
      destruct (num_data_files data_files =? 1)%Z.
      - unfold index_last.
        destruct (last_opt data_files) as [a |] eqn:E; [ | discriminate ].
        intros H. injection H as <-. apply last_opt_In. exact E.
      - apply choose_file_In. }
    assert (Herr : forall e, chosen = Err e ->
                   (e = EOFError \/ e = RecursionError)
                   /\ (2 <= List.length data_files)%nat).
    { unfold chosen. intros e.
      destruct (num_data_files data_files =? 1)%Z eqn:E1.
      - rewrite Efiles. unfold index_last.
        destruct (last_opt (f :: files)) as [a |] eqn:E; [ discriminate | ].
        apply last_opt_None in E. discriminate.
      - intros H. split.
        + apply choose_file_error in H.
          destruct H as [(-> & _) | ->]; [ left | right ]; reflexivity.
        + apply Z.eqb_neq in E1. unfold num_data_files in E1.
          rewrite Efiles in *. destruct files; simpl in *; lia. }
    destruct chosen as [file | e].
    + split; [ split; [ discriminate | rewrite Efiles; discriminate ] | ].
      split; [ intros code H; discriminate H | ].
      split; [ | intros e H; discriminate H ].
      intros file' H. injection H as <-. apply Hok. reflexivity.
    + split; [ split; [ discriminate | rewrite Efiles; discriminate ] | ].
      split; [ intros code H; discriminate H | ].
      split; [ intros file H; discriminate H | ].
      intros e' H. injection H as <-. apply Herr. reflexivity.
Qed.

End FileChoiceFacts.

Lemma choose_file_first_accepted_witness :
  exists file,
    choose_file decimal_int ["a"; "b"; "c"]%string
      (fun n => match n with
                | O => Some "7" | S O => Some "x" | _ => Some "2"
                end%string) 5 0 = Ok file
    /\ nth_error ["a"; "b"; "c"]%string 1 = Some file.
Proof.
  apply (choose_file_first_accepted string decimal_int
           ["a"; "b"; "c"]%string
           (fun n => match n with
                     | O => Some "7" | S O => Some "x" | _ => Some "2"
                     end%string) 2 5 0 "2"%string 1%Z).
  - intros j Hj. destruct j as [| [| j]]; [ | | lia ];
      eexists; split; reflexivity.
  - reflexivity.
  - reflexivity.
  - lia.
Defined.

Lemma choose_file_empty_answer_witness :
  choose_file decimal_int ["a"; "b"; "c"]%string
              (fun _ => Some EmptyString) 1 0
  = index_last ["a"; "b"; "c"]%string.
Proof.
  apply (choose_file_empty_answer string decimal_int
           ["a"; "b"; "c"]%string (fun _ => Some EmptyString) 0 0).
  - discriminate.
  - reflexivity.
Defined.

Lemma choose_file_bounds_witness :
  choose_file decimal_int ["a"; "b"; "c"]%string
              (fun _ => Some "3"%string) 1 0
  = index ["a"; "b"; "c"]%string 2
  /\ choose_file decimal_int ["a"; "b"; "c"]%string
       (fun n => match n with O => Some "4" | _ => Some "1" end%string) 2 0
     = choose_file decimal_int ["a"; "b"; "c"]%string
         (fun n => match n with O => Some "4" | _ => Some "1" end%string) 1 1.
Proof.
  split.
  - apply (proj1 (choose_file_bounds string decimal_int
                    ["a"; "b"; "c"]%string (fun _ => Some "3"%string) 0 0
                    "3"%string eq_refl ltac:(discriminate)) 3%Z).
    + reflexivity.
    + vm_compute. split; discriminate.
  - apply (proj1 (proj2 (choose_file_bounds string decimal_int
                    ["a"; "b"; "c"]%string
                    (fun n => match n with
                              | O => Some "4" | _ => Some "1"
                              end%string)
                    1 0 "4"%string eq_refl ltac:(discriminate))) 4%Z).
    + reflexivity.
    + right. vm_compute. reflexivity.
Defined.

(* ================================================================== *)
(** * Further properties of the compressed timeline *)

Lemma gaps_cons (a b : Q) (l : list Q) :
  gaps (a :: b :: l) = (b - a) :: gaps (b :: l).
Proof. reflexivity. Qed.

Lemma gaps_app (l l' : list Q) (y : Q) :
  gaps (l ++ y :: l') = gaps (l ++ [y]) ++ gaps (y :: l').
Proof.
  induction l as [| a l IH]; [ reflexivity | ].
  destruct l as [| b l]; [ reflexivity | ].
  change ((a :: b :: l) ++ y :: l') with (a :: b :: (l ++ y :: l')).
  change ((a :: b :: l) ++ [y]) with (a :: b :: (l ++ [y])).
  rewrite !gaps_cons.
  change (b :: l ++ y :: l') with ((b :: l) ++ y :: l').
  change (b :: l ++ [y]) with ((b :: l) ++ [y]).
  rewrite IH. reflexivity.
Qed.

Lemma gaps_snoc (l : list Q) (y x : Q) :
  gaps ((l ++ [y]) ++ [x]) = gaps (l ++ [y]) ++ [x - y].
Proof. rewrite <- app_assoc. simpl app. rewrite gaps_app. reflexivity. Qed.

(** [adjacent] read on the gaps. *)
Lemma adjacent_gaps (P : Q -> Prop) (l : list Q) :
  adjacent (fun x y => P (y - x)) l <-> Forall P (gaps l).
Proof.
  induction l as [| a [| b l] IH].
  - simpl. split; [ constructor | trivial ].
  - simpl. split; [ constructor | trivial ].
  - rewrite adjacent_cons, gaps_cons, IH. split.
    + intros [H1 H2]. constructor; assumption.
    + intros H. inversion H; subst. split; assumption.
Qed.

Section CompressionGaps.

Variable max_gap : Q.

Lemma capped_shift (delta : Q) (l : list Q) :
  forall gs,
    Forall2 (capped max_gap) gs (gaps l) ->
    Forall2 (capped max_gap) gs (gaps (map (shift_by max_gap delta) l)).
Proof.
  induction l as [| a [| b l] IH]; intros gs H; try exact H.
  change (map (shift_by max_gap delta) (a :: b :: l))
    with (shift_by max_gap delta a
          :: shift_by max_gap delta b :: map (shift_by max_gap delta) l).
  rewrite gaps_cons in *. inversion H as [| g g' gs' gs'' Hg Hgs]; subst.
  constructor.
  - unfold capped, shift_by in *. rewrite <- Hg. ring.
  - apply (IH gs'). exact Hgs.
Qed.

Lemma sweep_capped (todo : list Q) :
  forall done gs,
    done <> [] ->
    Forall2 (capped max_gap) gs (gaps done) ->
    Forall2 (capped max_gap) (gs ++ gaps (last done 0 :: todo))
            (gaps (sweep max_gap done todo)).
Proof.
  induction todo as [| x todo IH]; intros done gs Hne H.
  - simpl. rewrite app_nil_r. exact H.
  - destruct (exists_last Hne) as (pre & y & ->).
    rewrite last_last, gaps_cons.
    replace (gs ++ (x - y) :: gaps (x :: todo))
      with ((gs ++ [x - y]) ++ gaps (x :: todo))
      by (rewrite <- app_assoc; reflexivity).
    simpl sweep. rewrite last_last.
    fold (shift_by max_gap (x - y)).
    set (done' := if Qlt_bool max_gap (x - y)
                  then map (shift_by max_gap (x - y)) (pre ++ [y])
                  else pre ++ [y]).
    assert (Hlast : last (done' ++ [x]) 0 = x) by apply last_last.
    rewrite <- Hlast at 2. apply IH; [ destruct done'; discriminate | ].
    unfold done'. destruct (Qlt_bool max_gap (x - y)) eqn:E.
    + rewrite map_app. simpl map. rewrite gaps_snoc.
      apply Forall2_app.
      * change [shift_by max_gap (x - y) y]
          with (map (shift_by max_gap (x - y)) [y]).
        rewrite <- map_app. apply capped_shift. exact H.
      * constructor; [ | constructor ].
        unfold capped, capped_gap, shift_by. rewrite E. ring.
    + rewrite gaps_snoc. apply Forall2_app; [ exact H | ].
      constructor; [ | constructor ].
      unfold capped, capped_gap. rewrite E. reflexivity.
Qed.

Lemma zip_timeline_capped (tl : list Q) :
  Forall2 (capped max_gap) (gaps tl) (gaps (zip_timeline max_gap tl)).
Proof.
  destruct tl as [| a l]; [ constructor | ].
  rewrite zip_timeline_sweep.
  apply (sweep_capped l [a] []); [ discriminate | constructor ].
Qed.

Lemma sweep_forward (todo : list Q) :
  forall done before,
    Forall2 Qle before done ->
    Forall2 Qle (before ++ todo) (sweep max_gap done todo).
Proof.
  induction todo as [| x todo IH]; intros done before H; simpl.
  - rewrite app_nil_r. exact H.
  - replace (before ++ x :: todo) with ((before ++ [x]) ++ todo)
      by (rewrite <- app_assoc; reflexivity).
    apply IH. apply Forall2_app; [ | constructor; [ lra | constructor ] ].
    destruct (Qlt_bool max_gap (x - last done 0)) eqn:E; [ | exact H ].
    apply Qlt_bool_iff in E.
    remember (x - last done 0) as delta eqn:Edelta. clear Edelta IH.
    induction H as [| t t' before done Ht _ IH']; simpl; constructor.
    + lra.
    + exact IH'.
Qed.

End CompressionGaps.

(** X8: every gap of the compressed timeline is the gap of the raw
    timeline at the same place, cut down to the threshold when it is
    larger: gaps compound because each is cut on its own. *)
Theorem zip_timeline_caps_gaps (max_gap : Q) (tl : list Q) :
  Forall2 (fun gap gap' => gap' == capped_gap max_gap gap)
          (gaps tl) (gaps (zip_timeline max_gap tl)).
Proof. apply zip_timeline_capped. Qed.

(** X9: the loop never moves a timestamp back: every compressed timestamp
    is at or after the raw one, for any input and any threshold. *)
Theorem zip_timeline_moves_forward (max_gap : Q) (tl : list Q) :
  Forall2 Qle tl (zip_timeline max_gap tl).
Proof.
  destruct tl as [| a l]; [ constructor | ].
  rewrite zip_timeline_sweep.
  apply (sweep_forward max_gap l [a] [a]).
  constructor; [ lra | constructor ].
Qed.

Lemma adjacent_weaken (R R' : Q -> Q -> Prop) (l : list Q) :
  (forall x y, R x y -> R' x y) -> adjacent R l -> adjacent R' l.
Proof.
  intros HR. induction l as [| a [| b l] IH]; simpl; try tauto.
  intros [Hab H]. split; [ apply HR; exact Hab | apply IH; exact H ].
Qed.

Lemma sorted_below_last (l : list Q) (z : Q) :
  adjacent Qle l -> last_opt l = Some z -> Forall (fun t => t <= z) l.
Proof.
  induction l as [| a [| b l] IH]; intros Hs Hl.
  - constructor.
  - injection Hl as ->. constructor; [ lra | constructor ].
  - apply adjacent_cons in Hs. destruct Hs as [Hab Hs].
    specialize (IH Hs Hl). constructor; [ | exact IH ].
    inversion IH; subst. lra.
Qed.

Lemma Forall2_Forall {A : Type} (R : A -> A -> Prop) (P : A -> Prop)
    (l l' : list A) :
  (forall x y, R x y -> P x -> P y) ->
  Forall2 R l l' -> Forall P l -> Forall P l'.
Proof.
  intros HR H. induction H as [| x y l l' Hxy _ IH]; intros HP.
  - constructor.
  - inversion HP; subst. constructor; [ eapply HR; eassumption | auto ].
Qed.

(** X10: in a sorted series, with a threshold that is not negative, no
    compressed timestamp passes the last raw timestamp: compression draws
    the older samples towards the most recent one. *)
Theorem zip_timeline_before_last (max_gap : Q) (tl : list Q) (z : Q) :
  0 <= max_gap ->
  adjacent Qle tl ->
  last_opt tl = Some z ->
  Forall (fun t => t <= z) (zip_timeline max_gap tl).
Proof.
  intros Hgap Hsorted Hlast.
  apply sorted_below_last; [ | rewrite zip_timeline_last; exact Hlast ].
  destruct tl as [| a l]; [ exact I | ].
  rewrite zip_timeline_sweep.
  apply sweep_sorted; [ exact Hgap | discriminate | exact Hsorted ].
Qed.

Lemma zip_timeline_before_last_witness :
  Forall (fun t => t <= 20100)
         (timeline_zipped [0; 1000; 2000; 2100; 20100]%Z).
Proof.
  apply (zip_timeline_before_last MAX_GAP
           (map inject_Z [0; 1000; 2000; 2100; 20100]%Z) 20100).
  - vm_compute. discriminate.
  - simpl. repeat split; vm_compute; discriminate.
  - reflexivity.
Defined.

(** X11: with a positive threshold, a series whose timestamps strictly
    increase keeps strictly increasing timestamps: no two samples are
    drawn onto the same point. *)
Theorem zip_timeline_strictly_sorted (max_gap : Q) (tl : list Q) :
  0 < max_gap ->
  adjacent Qlt tl ->
  adjacent Qlt (zip_timeline max_gap tl).
Proof.
  intros Hgap Hsorted.
  apply (adjacent_weaken (fun x y => 0 < y - x)); [ intros x y H; lra | ].
  apply adjacent_gaps.
  apply (Forall2_Forall (capped max_gap) (fun g => 0 < g) (gaps tl)).
  - intros g g' Hc Hg. unfold capped, capped_gap in Hc.
    destruct (Qlt_bool max_gap g); rewrite Hc; assumption.
  - apply zip_timeline_capped.
  - apply adjacent_gaps.
    apply (adjacent_weaken Qlt); [ intros x y H; lra | exact Hsorted ].
Qed.

Lemma zip_timeline_strictly_sorted_witness :
  adjacent Qlt (timeline_zipped [0; 1000; 2000; 2100; 20100]%Z).
Proof.
  apply (zip_timeline_strictly_sorted MAX_GAP
           (map inject_Z [0; 1000; 2000; 2100; 20100]%Z)).
  - reflexivity.
  - simpl. repeat split; reflexivity.
Defined.

Lemma span_within (max_gap : Q) (l : list Q) :
  forall a z,
    adjacent (gap_within max_gap) l ->
    hd_error l = Some a ->
    last_opt l = Some z ->
    z - a <= inject_Z (Z.of_nat (List.length l - 1)) * max_gap.
Proof.
  induction l as [| a0 [| b l] IH]; intros a z Hgaps Hhd Hlast.
  - discriminate.
  - injection Hhd as <-. injection Hlast as <-. simpl.
    change (inject_Z 0) with 0. lra.
  - injection Hhd as <-. apply adjacent_cons in Hgaps.
    destruct Hgaps as [Hab Hgaps].
    specialize (IH b z Hgaps eq_refl Hlast).
    unfold gap_within in Hab.
    replace (List.length (a0 :: b :: l) - 1)%nat
      with (S (List.length (b :: l) - 1)) by (simpl; lia).
    rewrite Nat2Z.inj_succ, <- Z.add_1_r, inject_Z_plus.
    change (inject_Z 1) with 1. lra.
Qed.

(** X12: the compressed timeline of [n] samples spans at most [n - 1]
    thresholds from its first timestamp to its last. *)
Theorem zip_timeline_span (max_gap : Q) (tl : list Q) (a z : Q) :
  hd_error (zip_timeline max_gap tl) = Some a ->
  last_opt (zip_timeline max_gap tl) = Some z ->
  z - a <= inject_Z (Z.of_nat (List.length tl - 1)) * max_gap.
Proof.
  intros Hhd Hlast. rewrite <- (zip_timeline_length max_gap tl).
  apply span_within; [ apply zip_timeline_gaps | exact Hhd | exact Hlast ].
Qed.

Lemma zip_timeline_span_witness :
  exists a z,
    hd_error (timeline_zipped [0; 1000; 2000; 2100; 20100]%Z) = Some a
    /\ last_opt (timeline_zipped [0; 1000; 2000; 2100; 20100]%Z) = Some z
    /\ z - a <= inject_Z (Z.of_nat (5 - 1)) * MAX_GAP.
Proof.
  eexists. eexists. split; [ reflexivity | ]. split; [ reflexivity | ].
  apply (zip_timeline_span MAX_GAP
           (map inject_Z [0; 1000; 2000; 2100; 20100]%Z)); reflexivity.
Defined.

(** X13: a series in which no gap exceeds the threshold is its own
    compressed timeline. *)
Theorem zip_timeline_without_gaps (max_gap : Q) (tl : list Q) :
  adjacent (gap_within max_gap) tl ->
  zip_timeline max_gap tl = tl.
Proof. apply zip_timeline_fixed. Qed.

Lemma zip_timeline_without_gaps_witness :
  timeline_zipped [0; 600; 1200; 1920]%Z
  = map inject_Z [0; 600; 1200; 1920]%Z.
Proof.
  apply (zip_timeline_without_gaps MAX_GAP
           (map inject_Z [0; 600; 1200; 1920]%Z)).
  simpl. repeat split; vm_compute; discriminate.
Defined.

(* ================================================================== *)
(** * Further properties of [format] *)

Lemma nth_error_skipn {A : Type} (l : list A) :
  forall n c, nth_error l n = Some c -> skipn n l = c :: skipn (S n) l.
Proof.
  induction l as [| a l IH]; intros [| n] c H; try discriminate.
  - injection H as ->. reflexivity.
  - simpl in H. apply IH in H. exact H.
Qed.

Lemma skipn_S_tl {A : Type} (l : list A) :
  forall n, skipn (S n) l = tl (skipn n l).
Proof.
  induction l as [| a l IH]; intros n.
  - destruct n; reflexivity.
  - destruct n as [| n]; [ reflexivity | apply (IH n) ].
Qed.

Lemma combine_map_fst_snd {A B : Type} (l : list (A * B)) :
  combine (map fst l) (map snd l) = l.
Proof.
  induction l as [| [a b] l IH]; simpl; [ | rewrite IH ]; reflexivity.
Qed.

(** The comprehension of lines 270-274 is a filter on the samples. *)
Lemma new_data_from_filter (d : Data) (t_start t_end : Q) (tl : list Q) :
  forall idx l,
    new_data_from d t_start t_end idx tl = Ok l ->
    l = filter (fun p => in_range t_start t_end (fst p))
               (combine tl (skipn idx (charge_data d))).
Proof.
  induction tl as [| time tl IH]; intros idx l; simpl.
  - intros H. injection H as <-. reflexivity.
  - fold (in_range t_start t_end time).
    destruct (in_range t_start t_end time) eqn:E.
    + intros H. apply bind_Ok in H. destruct H as (c & Hc & H).
      apply bind_Ok in H. destruct H as (more & Hmore & H).
      injection H as <-. unfold index in Hc.
      destruct (nth_error (charge_data d) idx) as [c' |] eqn:En;
        [ | discriminate ].
      injection Hc as ->. rewrite (nth_error_skipn _ _ _ En).
      cbn [combine filter fst]. rewrite E. f_equal. apply IH. exact Hmore.
    + intros H. apply IH in H. rewrite H, skipn_S_tl.
      destruct (skipn idx (charge_data d)) as [| c rest];
        cbn [combine filter fst List.tl].
      * destruct tl; reflexivity.
      * rewrite E. reflexivity.
Qed.

(** What a call of [format] that returns has done. *)
Lemma format_Ok (d : Data) (timestamp_now : Q)
    (compress' relative' : option bool) (min_max_history : Q * Q)
    (self self' : BatteryStat) :
  format d timestamp_now compress' relative' min_max_history self = Ok self' ->
  exists now new_data,
    (if compress self'
     then index_last (timeline_zipped (timeline d)) = Ok now
     else now = timestamp_now)
    /\ compress self'
       = match compress' with Some v => v | None => compress self end
    /\ plot_range self'
       = (now - hours_in_seconds (snd min_max_history),
          now - hours_in_seconds (fst min_max_history))
    /\ new_data_from d (fst (plot_range self')) (snd (plot_range self')) 0
                     (timeline_local d (compress self')) = Ok new_data
    /\ self_timeline self' = map fst new_data
    /\ self_charge_data self' = map snd new_data.
Proof.
  unfold format. intros H.
  apply bind_Ok in H. destruct H as ((tl & now) & Hnow & H).
  apply bind_Ok in H. destruct H as (new_data & Hnew & H).
  injection H as <-. simpl. exists now, new_data.
  destruct (match compress' with Some v => v | None => compress self end).
  - apply bind_Ok in Hnow. destruct Hnow as (now' & Hlast & Hnow).
    injection Hnow as <- <-. repeat split; assumption.
  - injection Hnow as <- <-. repeat split; assumption.
Qed.

Lemma format_window_filter (d : Data) (timestamp_now : Q)
    (compress' relative' : option bool) (min_max_history : Q * Q)
    (self self' : BatteryStat) :
  format d timestamp_now compress' relative' min_max_history self = Ok self' ->
  combine (self_timeline self') (self_charge_data self')
  = filter (fun sample =>
              in_range (fst (plot_range self')) (snd (plot_range self'))
                       (fst sample))
           (combine (timeline_local d (compress self')) (charge_data d)).
Proof.
  intros H. apply format_Ok in H.
  destruct H as (now & new_data & _ & _ & _ & Hnew & -> & ->).
  apply new_data_from_filter in Hnew. simpl skipn in Hnew.
  rewrite combine_map_fst_snd. exact Hnew.
Qed.

(** X14: the window that [format] leaves holds, in their order, exactly
    the samples of the timeline of the current mode whose timestamp lies
    in the plot range, each with the charge recorded at its index; so
    every timestamp of the window lies in the plot range. *)
Theorem format_window_is_filter (d : Data) (timestamp_now : Q)
    (compress' relative' : option bool) (min_max_history : Q * Q)
    (self self' : BatteryStat) :
  format d timestamp_now compress' relative' min_max_history self = Ok self' ->
  combine (self_timeline self') (self_charge_data self')
  = filter (fun sample =>
              in_range (fst (plot_range self')) (snd (plot_range self'))
                       (fst sample))
           (combine (timeline_local d (compress self')) (charge_data d))
  /\ Forall (fun time => fst (plot_range self') <= time
                         /\ time <= snd (plot_range self'))
            (self_timeline self').
Proof.
  intros H. split; [ eapply format_window_filter; exact H | ].
  apply format_Ok in H.
  destruct H as (now & new_data & _ & _ & _ & Hnew & -> & _).
  apply new_data_from_filter in Hnew.
  rewrite Hnew. apply Forall_forall. intros time Hin.
  apply in_map_iff in Hin. destruct Hin as ((t & c) & <- & Hin).
  apply filter_In in Hin. destruct Hin as [_ Hin].
  unfold in_range in Hin. apply andb_true_iff in Hin.
  destruct Hin as [H1 H2]. apply Qle_bool_iff in H1, H2.
  split; assumption.
Qed.

Lemma format_window_is_filter_witness :
  exists self',
    init sample_data 0 = Ok self'
    /\ combine (self_timeline self') (self_charge_data self')
       = filter (fun sample =>
                   in_range (fst (plot_range self')) (snd (plot_range self'))
                            (fst sample))
                (combine (timeline_local sample_data (compress self'))
                         (charge_data sample_data))
    /\ Forall (fun time => fst (plot_range self') <= time
                           /\ time <= snd (plot_range self'))
              (self_timeline self').
Proof.
  assert (E : exists self', init sample_data 0 = Ok self')
    by (vm_compute; eexists; reflexivity).
  destruct E as (self' & E). exists self'. split; [ exact E | ].
  exact (format_window_is_filter sample_data 0 None None
           (DEFAULT_HISTORY_MIN, DEFAULT_HISTORY_MAX) initial_stat self' E).
Defined.

Lemma combine_snoc {A B : Type} (l : list A) (l' : list B) (a : A) (b : B) :
  List.length l = List.length l' ->
  combine (l ++ [a]) (l' ++ [b]) = combine l l' ++ [(a, b)].
Proof.
  revert l'. induction l as [| x l IH]; intros [| y l'] H;
    try discriminate; [ reflexivity | ].
  simpl. rewrite IH; [ reflexivity | ]. simpl in H. lia.
Qed.

Lemma format_latest (d : Data) (timestamp_now : Q)
    (compress' relative' : option bool) (min_max_history : Q * Q)
    (self self' : BatteryStat) :
  prepared d ->
  format d timestamp_now compress' relative' min_max_history self = Ok self' ->
  compress self' = true ->
  fst min_max_history <= 0 ->
  0 <= snd min_max_history ->
  exists t,
    last_opt (timeline d) = Some t
    /\ last_opt (self_timeline self') = Some (inject_Z t)
    /\ last_opt (self_charge_data self') = Some (current_charge d).
Proof.
  intros Hd H Hc Hlo Hhi.
  destruct (prepared_columns d Hd) as (Hlen & t & Ht).
  destruct Hd as (_ & _ & _ & Hcurrent).
  pose proof (format_window_filter _ _ _ _ _ _ _ H) as Hwin.
  pose proof (format_window _ _ _ _ _ _ _ H) as Hsame.
  apply format_Ok in H.
  destruct H as (now & new_data & Hnow & _ & Hrange & _ & _ & _).
  rewrite Hc in Hnow, Hwin. unfold timeline_local in Hwin.
  unfold index_last in Hnow, Hcurrent.
  rewrite timeline_zipped_last, Ht in Hnow. injection Hnow as <-.
  destruct (last_opt (charge_data d)) as [cc |] eqn:Ecc; [ | discriminate ].
  injection Hcurrent as ->.
  assert (Hz : last_opt (timeline_zipped (timeline d)) = Some (inject_Z t))
    by (rewrite timeline_zipped_last, Ht; reflexivity).
  destruct (last_opt_Some _ _ Hz) as (pre & Epre).
  destruct (last_opt_Some _ _ Ecc) as (cpre & Ecpre).
  assert (Hpre : List.length pre = List.length cpre).
  { pose proof (timeline_zipped_length (timeline d)) as Hl.
    rewrite Epre in Hl. rewrite Ecpre in Hlen.
    rewrite length_app in Hl, Hlen. simpl in Hl, Hlen. lia. }
  rewrite Epre, Ecpre, (combine_snoc _ _ _ _ Hpre), filter_app in Hwin.
  assert (Hin : in_range (fst (plot_range self')) (snd (plot_range self'))
                         (inject_Z t) = true).
  { rewrite Hrange. unfold in_range. simpl fst. simpl snd.
    pose proof (hours_in_seconds_mono _ _ Hlo) as Hnear.
    pose proof (hours_in_seconds_mono _ _ Hhi) as Hfar.
    pose proof hours_in_seconds_0 as Hzero.
    apply andb_true_iff. split; apply Qle_bool_iff; lra. }
  simpl filter in Hwin at 2. simpl fst in Hwin at 3. rewrite Hin in Hwin.
  exists t. split; [ exact Ht | ].
  assert (Hlast : last_opt (combine (self_timeline self')
                                    (self_charge_data self'))
                  = Some (inject_Z t, current_charge d)).
  { rewrite Hwin, last_opt_app_cons. reflexivity. }
  clear - Hlast Hsame.
  revert Hlast Hsame.
  generalize (self_timeline self') (self_charge_data self').
  intros ts. induction ts as [| a [| b ts] IH]; intros [| c [| c' cs]];
    simpl; try discriminate; intros Hlast Hsame.
  - injection Hlast as -> ->. split; reflexivity.
  - apply (IH (c' :: cs)).
    + exact Hlast.
    + simpl. simpl in Hsame. lia.
Qed.

(** X15: in compressed mode, with a range that reaches the present (the
    near bound at most 0 hours, the far bound at least 0), the window ends
    with the most recent sample: its timestamp is the last raw timestamp
    and its charge the current charge. *)
Theorem format_keeps_latest (d : Data) (timestamp_now : Q)
    (compress' relative' : option bool) (min_max_history : Q * Q)
    (self self' : BatteryStat) :
  prepared d ->
  format d timestamp_now compress' relative' min_max_history self = Ok self' ->
  compress self' = true ->
  fst min_max_history <= 0 ->
  0 <= snd min_max_history ->
  exists t,
    last_opt (timeline d) = Some t
    /\ last_opt (self_timeline self') = Some (inject_Z t)
    /\ last_opt (self_charge_data self') = Some (current_charge d).
Proof. apply format_latest. Qed.

Lemma format_keeps_latest_witness :
  exists self' t,
    init sample_data 0 = Ok self'
    /\ last_opt (timeline sample_data) = Some t
    /\ last_opt (self_timeline self') = Some (inject_Z t)
    /\ last_opt (self_charge_data self')
       = Some (current_charge sample_data).
Proof.
  assert (E : exists self',
             init sample_data 0 = Ok self' /\ compress self' = true)
    by (vm_compute; eexists; split; reflexivity).
  destruct E as (self' & E & Hc).
  destruct (format_keeps_latest sample_data 0 None None
              (DEFAULT_HISTORY_MIN, DEFAULT_HISTORY_MAX) initial_stat self'
              sample_data_prepared E Hc) as (t & H).
  - vm_compute. discriminate.
  - vm_compute. discriminate.
  - exists self', t. split; [ exact E | exact H ].
Defined.

(** X16: a wider range shows at least the samples of a narrower one: when
    two calls of [format] differ only in their bounds, and the second
    reaches at least as far on both sides, every sample of the first
    window is in the second. *)
Theorem format_wider_range (d : Data) (timestamp_now : Q)
    (compress' relative' : option bool) (lo hi lo' hi' : Q)
    (self narrow wide : BatteryStat) :
  format d timestamp_now compress' relative' (lo, hi) self = Ok narrow ->
  format d timestamp_now compress' relative' (lo', hi') self = Ok wide ->
  lo' <= lo ->
  hi <= hi' ->
  incl (combine (self_timeline narrow) (self_charge_data narrow))
       (combine (self_timeline wide) (self_charge_data wide)).
Proof.
  intros Hn Hw Hlo Hhi.
  rewrite (format_window_filter _ _ _ _ _ _ _ Hn).
  rewrite (format_window_filter _ _ _ _ _ _ _ Hw).
  apply format_Ok in Hn, Hw.
  destruct Hn as (now & _ & Hnow & Hc & Hrange & _).
  destruct Hw as (now' & _ & Hnow' & Hc' & Hrange' & _).
  assert (Hsame : compress wide = compress narrow) by congruence.
  rewrite Hsame in *.
  assert (Enow : now' = now).
  { destruct (compress narrow); congruence. }
  subst now'. rewrite Hrange, Hrange'. simpl fst. simpl snd.
  intros sample Hin. apply filter_In in Hin. destruct Hin as [Hin Hr].
  apply filter_In. split; [ exact Hin | ].
  pose proof (hours_in_seconds_mono _ _ Hlo) as Hnear.
  pose proof (hours_in_seconds_mono _ _ Hhi) as Hfar.
  unfold in_range in *.
  apply andb_true_iff in Hr. destruct Hr as [H1 H2].
  apply Qle_bool_iff in H1, H2.
  apply andb_true_iff. split; apply Qle_bool_iff; lra.
Qed.

Lemma format_wider_range_witness :
  exists narrow wide,
    format sample_data 0 None None (0, 0.1) initial_stat = Ok narrow
    /\ format sample_data 0 None None (0, 12) initial_stat = Ok wide
    /\ incl (combine (self_timeline narrow) (self_charge_data narrow))
            (combine (self_timeline wide) (self_charge_data wide)).
Proof.
  assert (En : exists narrow,
             format sample_data 0 None None (0, 0.1) initial_stat = Ok narrow)
    by (vm_compute; eexists; reflexivity).
  assert (Ew : exists wide,
             format sample_data 0 None None (0, 12) initial_stat = Ok wide)
    by (vm_compute; eexists; reflexivity).
  destruct En as (narrow & En). destruct Ew as (wide & Ew).
  exists narrow, wide. split; [ exact En | ]. split; [ exact Ew | ].
  apply (format_wider_range sample_data 0 None None 0 0.1 0 12
           initial_stat narrow wide En Ew).
  - vm_compute. discriminate.
  - vm_compute. discriminate.
Defined.

(* ================================================================== *)
(** * Further properties of [analyze] *)

Lemma adjacent_first_last (R : Q -> Q -> Prop) (l : list Q) :
  (forall x, R x x) ->
  (forall x y z, R x y -> R y z -> R x z) ->
  forall a z,
    adjacent R l -> index l 0 = Ok a -> index_last l = Ok z -> R a z.
Proof.
  intros Hrefl Htrans. unfold index, index_last.
  induction l as [| a0 [| b l] IH]; intros a z Hadj Ha Hz.
  - discriminate.
  - simpl in Ha, Hz. injection Ha as <-. injection Hz as <-. apply Hrefl.
  - simpl in Ha. injection Ha as <-.
    apply adjacent_cons in Hadj. destruct Hadj as [Hab Hadj].
    apply (Htrans a0 b z Hab). apply IH; [ exact Hadj | reflexivity | ].
    exact Hz.
Qed.

Lemma Qabs_nonzero (x : Q) : Qeq_bool (Qabs x) 0 = false -> ~ x == 0.
Proof.
  intros H Hx. rewrite Hx in H. discriminate H.
Qed.

Lemma Qabs_positive (x : Q) : ~ x == 0 -> 0 < Qabs x.
Proof.
  intros H. apply Qabs_case; intros Hx;
    destruct (Qeq_dec x 0); try contradiction; lra.
Qed.

(** Past the guard, with a window that has a first and a last sample and
    a data sheet that is not empty, [statistics] raises exactly when the
    time range or the change of charge is zero. *)
Lemma statistics_raises (d : Data) (self : BatteryStat)
    (t_first t_last c_first c_last : Q) :
  data_sheet d <> [] ->
  index (self_timeline self) 0 = Ok t_first ->
  index_last (self_timeline self) = Ok t_last ->
  index (self_charge_data self) 0 = Ok c_first ->
  index_last (self_charge_data self) = Ok c_last ->
  (t_last == t_first \/ c_last == c_first ->
   statistics d self = Err ZeroDivisionError)
  /\ (~ t_last == t_first -> ~ c_last == c_first ->
      exists s, statistics d self = Ok s).
Proof.
  intros Hsheet Htf Htl Hcf Hcl. split.
  - intros Hzero.
    destruct (Qeq_dec t_last t_first) as [Ht | Ht].
    + apply (statistics_zero_range d self t_first t_last Htf Htl Ht).
      intros E. rewrite E in Hcf. discriminate.
    + destruct Hzero as [Hz | Hz]; [ contradiction | ].
      unfold statistics. rewrite Htl, Htf, Hcl, Hcf. cbn [bind].
      unfold truediv at 1. rewrite AN_HOUR_nonzero. cbn [bind].
      rewrite truediv_nonzero;
        [ | apply Qdiv_nonzero; [ intros H; apply Ht; lra | discriminate ] ].
      cbn [bind]. rewrite truediv_zero; [ reflexivity | ].
      setoid_replace (c_last - c_first) with 0 by lra.
      reflexivity.
  - intros Ht Hc.
    destruct (index_last_cons _ Hsheet) as (last_line & Hrow).
    destruct (statistics_value d self t_first t_last c_first c_last last_line
                Htf Htl Hcf Hcl Hrow Ht Hc) as (s & Hs & _).
    exists s. exact Hs.
Qed.

(** X17: on prepared data, for a window that has a first and a last
    sample, [analyze] raises exactly when the window has three samples or
    more, its charges are monotonic, and the time range or the change of
    charge from the first sample to the last is zero; what it raises is
    [ZeroDivisionError]. *)
Theorem analyze_raises_iff (d : Data) (self : BatteryStat)
    (t_first t_last c_first c_last : Q) :
  prepared d ->
  index (self_timeline self) 0 = Ok t_first ->
  index_last (self_timeline self) = Ok t_last ->
  index (self_charge_data self) 0 = Ok c_first ->
  index_last (self_charge_data self) = Ok c_last ->
  (forall e,
      analyze d self = Err e <->
      e = ZeroDivisionError
      /\ (3 <= List.length (self_timeline self))%nat
      /\ monotonic (self_charge_data self)
      /\ (t_last == t_first \/ c_last == c_first)).
Proof.
  intros (Hsheet & _) Htf Htl Hcf Hcl e.
  destruct (statistics_raises d self t_first t_last c_first c_last
              Hsheet Htf Htl Hcf Hcl) as [Hzero Hfine].
  unfold analyze. destruct (no_trend_guard self) eqn:Eg.
  - split; [ discriminate | ].
    intros (_ & Hlen & Hmono & _).
    assert (no_trend_guard self = false)
      by (apply no_trend_guard_false; split; assumption).
    congruence.
  - apply no_trend_guard_false in Eg. destruct Eg as [Hlen Hmono].
    destruct (Qeq_dec t_last t_first) as [Ht | Ht];
      [ | destruct (Qeq_dec c_last c_first) as [Hc | Hc] ].
    + rewrite (Hzero (or_introl Ht)). cbn [bind]. split.
      * intros H. injection H as <-. auto.
      * intros (-> & _). reflexivity.
    + rewrite (Hzero (or_intror Hc)). cbn [bind]. split.
      * intros H. injection H as <-. auto.
      * intros (-> & _). reflexivity.
    + destruct (Hfine Ht Hc) as (s & ->). cbn [bind]. split.
      * discriminate.
      * intros (_ & _ & _ & [H | H]); contradiction.
Qed.

Lemma analyze_raises_iff_witness :
  analyze sample_data
          (mkStat true true (0, 0) [0; 3600; 7200] [50; 50; 50])
  = Err ZeroDivisionError.
Proof.
  apply (analyze_raises_iff sample_data
           (mkStat true true (0, 0) [0; 3600; 7200] [50; 50; 50])
           0 7200 50 50 sample_data_prepared
           eq_refl eq_refl eq_refl eq_refl).
  split; [ reflexivity | ]. split; [ simpl; lia | ].
  split; [ left; unfold non_decreasing; simpl;
           repeat split; vm_compute; discriminate | ].
  right. reflexivity.
Defined.

(** X18: the statistics that [analyze] shows never have a rate of zero:
    the life and the full life are positive, and the life is the full life
    scaled by the maximum charge over 100. *)
Theorem shown_statistics_positive (d : Data) (self : BatteryStat)
    (s : Statistics) :
  analyze d self = Ok (Trend s) ->
  ~ rate s == 0
  /\ 0 < life s
  /\ 0 < full_life s
  /\ life s == inject_Z BATTERY_MAX_CHARGE / 100 * full_life s.
Proof.
  intros H. apply analyze_Trend in H. destruct H as [_ H].
  apply statistics_Ok in H.
  destruct H as (t_last & t_first & c_last & c_first & last_line & H).
  destruct H as (_ & _ & _ & _ & _ & _ & Hnz & -> & -> & _).
  apply Qabs_nonzero in Hnz.
  pose proof (Qabs_positive _ Hnz) as Hpos.
  assert (Hinv : 0 < / Qabs (rate s)) by (apply Qinv_lt_0_compat; exact Hpos).
  split; [ exact Hnz | ].
  unfold Qdiv, BATTERY_MAX_CHARGE.
  change (inject_Z 85) with 85.
  remember (/ Qabs (rate s)) as i eqn:Ei. clear Ei.
  split; [ lra | ]. split; [ lra | ]. field.
Qed.

Lemma shown_statistics_positive_witness :
  exists s,
    analyze sample_data
      (mkStat true true (0, 0) [0; 3600; 7200] [30; 20; 10]) = Ok (Trend s)
    /\ ~ rate s == 0
    /\ 0 < life s
    /\ 0 < full_life s
    /\ life s == inject_Z BATTERY_MAX_CHARGE / 100 * full_life s.
Proof.
  assert (E : exists s,
             analyze sample_data
               (mkStat true true (0, 0) [0; 3600; 7200] [30; 20; 10])
             = Ok (Trend s))
    by (vm_compute; eexists; reflexivity).
  destruct E as (s & E). exists s. split; [ exact E | ].
  exact (shown_statistics_positive sample_data _ s E).
Defined.

(** X19: over a window whose last timestamp is after its first, the rate
    that [analyze] shows is positive when the charges do not decrease and
    negative when they do not increase. *)
Theorem rate_sign (d : Data) (self : BatteryStat) (s : Statistics)
    (t_first t_last : Q) :
  analyze d self = Ok (Trend s) ->
  index (self_timeline self) 0 = Ok t_first ->
  index_last (self_timeline self) = Ok t_last ->
  t_first < t_last ->
  (non_decreasing (self_charge_data self) -> 0 < rate s)
  /\ (non_increasing (self_charge_data self) -> rate s < 0).
Proof.
  intros H Htf Htl Ht. apply analyze_Trend in H. destruct H as [_ H].
  apply statistics_Ok in H.
  destruct H as (t_last' & t_first' & c_last & c_first & last_line & H).
  destruct H as (Htl' & Htf' & Hcl & Hcf & _ & Hrate & Hnz & _).
  rewrite Htl in Htl'. injection Htl' as <-.
  rewrite Htf in Htf'. injection Htf' as <-.
  apply Qabs_nonzero in Hnz.
  assert (Hrange : 0 < (t_last - t_first) / AN_HOUR).
  { unfold Qdiv, AN_HOUR. apply Qmult_lt_0_compat; [ lra | reflexivity ]. }
  assert (Hne : ~ c_last == c_first).
  { intros E. apply Hnz. rewrite Hrate. unfold Qdiv.
    setoid_replace (c_last - c_first) with 0 by lra. ring. }
  rewrite Hrate. split; intros Hmono.
  - assert (Hle : c_first <= c_last).
    { apply (adjacent_first_last Qle (self_charge_data self));
        [ intros; lra | intros; lra | exact Hmono | exact Hcf | exact Hcl ]. }
    apply Qlt_shift_div_l; [ exact Hrange | lra ].
  - assert (Hle : c_last <= c_first).
    { apply (adjacent_first_last (fun x y => y <= x)
                                 (self_charge_data self));
        [ intros; lra | intros; lra | exact Hmono | exact Hcf | exact Hcl ]. }
    apply Qlt_shift_div_r; [ exact Hrange | lra ].
Qed.

Lemma rate_sign_witness :
  exists s,
    analyze sample_data
      (mkStat true true (0, 0) [0; 3600; 7200] [30; 20; 10]) = Ok (Trend s)
    /\ rate s < 0.
Proof.
  assert (E : exists s,
             analyze sample_data
               (mkStat true true (0, 0) [0; 3600; 7200] [30; 20; 10])
             = Ok (Trend s))
    by (vm_compute; eexists; reflexivity).
  destruct E as (s & E). exists s. split; [ exact E | ].
  apply (proj2 (rate_sign sample_data _ s 0 7200 E eq_refl eq_refl
                  ltac:(reflexivity))).
  unfold non_increasing. simpl. repeat split; vm_compute; discriminate.
Defined.

(* ================================================================== *)
(** * Further properties of [format] on its own state *)

Lemma Qopp_opp (q : Q) : - - q = q.
Proof.
  destruct q as [n p]. unfold Qopp. simpl. rewrite Z.opp_involutive.
  reflexivity.
Qed.

Lemma format_flags (d : Data) (timestamp_now : Q)
    (compress' relative' : option bool) (min_max_history : Q * Q)
    (self self' : BatteryStat) :
  format d timestamp_now compress' relative' min_max_history self = Ok self' ->
  compress self' = resolved compress' (compress self)
  /\ relative self' = resolved relative' (relative self).
Proof.
  unfold format. intros H.
  apply bind_Ok in H. destruct H as ((tl & now) & _ & H).
  apply bind_Ok in H. destruct H as (new_data & _ & H).
  injection H as <-. split; reflexivity.
Qed.

(** [format] reads the two flags of the object and nothing else of it,
    and in compressed mode it does not read the clock. *)
Lemma format_reads_flags (d : Data) (timestamp_now timestamp_now' : Q)
    (compress' relative' : option bool) (min_max_history : Q * Q)
    (self self' : BatteryStat) :
  resolved compress' (compress self) = resolved compress' (compress self') ->
  resolved relative' (relative self) = resolved relative' (relative self') ->
  (resolved compress' (compress self) = true
   \/ timestamp_now = timestamp_now') ->
  format d timestamp_now compress' relative' min_max_history self
  = format d timestamp_now' compress' relative' min_max_history self'.
Proof.
  unfold format, resolved. intros -> -> Hclock.
  destruct (match compress' with Some v => v | None => compress self' end);
    [ reflexivity | ].
  destruct Hclock as [H | ->]; [ discriminate | reflexivity ].
Qed.

Lemma format_resolved (d : Data) (timestamp_now : Q)
    (compress' relative' : option bool) (min_max_history : Q * Q)
    (self : BatteryStat) :
  format d timestamp_now compress' relative' min_max_history self
  = format d timestamp_now
           (Some (resolved compress' (compress self)))
           (Some (resolved relative' (relative self)))
           min_max_history self.
Proof. reflexivity. Qed.

Lemma format_repeats (d : Data) (timestamp_now timestamp_now' : Q)
    (compress' relative' : option bool) (min_max_history : Q * Q)
    (self self' : BatteryStat) :
  format d timestamp_now compress' relative' min_max_history self = Ok self' ->
  compress self' = true \/ timestamp_now' = timestamp_now ->
  format d timestamp_now' None None min_max_history self' = Ok self'.
Proof.
  intros H Hclock. pose proof (format_flags _ _ _ _ _ _ _ H) as [Hc Hr].
  rewrite <- H, (format_resolved d timestamp_now compress' relative').
  rewrite (format_resolved d timestamp_now' None None).
  simpl (resolved None _). rewrite Hc, Hr.
  apply format_reads_flags; try reflexivity.
  simpl. destruct Hclock as [Hcomp | E]; [ left; congruence | right; exact E ].
Qed.

(** X23: [format] called again with the same bounds and without options
    leaves the state as it is, in compressed mode whatever the clock
    reads, in the other modes at the same clock reading. *)
Theorem format_idempotent (d : Data) (timestamp_now timestamp_now' : Q)
    (compress' relative' : option bool) (min_max_history : Q * Q)
    (self self' : BatteryStat) :
  format d timestamp_now compress' relative' min_max_history self = Ok self' ->
  compress self' = true \/ timestamp_now' = timestamp_now ->
  format d timestamp_now' None None min_max_history self' = Ok self'.
Proof. apply format_repeats. Qed.

Lemma format_idempotent_witness :
  exists self',
    init sample_data 0 = Ok self'
    /\ format sample_data 1600010000 None None
              (DEFAULT_HISTORY_MIN, DEFAULT_HISTORY_MAX) self' = Ok self'.
Proof.
  assert (E : exists self',
             init sample_data 0 = Ok self' /\ compress self' = true)
    by (vm_compute; eexists; split; reflexivity).
  destruct E as (self' & E & Hc). exists self'. split; [ exact E | ].
  apply (format_idempotent sample_data 0 1600010000 None None
           (DEFAULT_HISTORY_MIN, DEFAULT_HISTORY_MAX) initial_stat self' E).
  left. exact Hc.
Defined.

(* ================================================================== *)
(** * The window as a slice of the readings, and what [graph] makes of it *)

Lemma adjacent_tail (R : Q -> Q -> Prop) (a : Q) (l : list Q) :
  adjacent R (a :: l) -> adjacent R l.
Proof.
  destruct l as [| b l]; [ trivial | ].
  intros H. apply adjacent_cons in H. apply H.
Qed.

Lemma adjacent_skipn (R : Q -> Q -> Prop) (l : list Q) :
  forall n, adjacent R l -> adjacent R (skipn n l).
Proof.
  induction l as [| a l IH]; intros [| n] H; try exact H.
  simpl. apply IH. apply adjacent_tail in H. exact H.
Qed.

Lemma adjacent_firstn (R : Q -> Q -> Prop) (l : list Q) :
  forall m, adjacent R l -> adjacent R (firstn m l).
Proof.
  induction l as [| a l IH]; intros [| m] H; try exact I.
  destruct l as [| b l]; [ destruct m; exact I | ].
  destruct m as [| m]; [ exact I | ].
  apply adjacent_cons in H. destruct H as [Hab H].
  change (firstn (S (S m)) (a :: b :: l))
    with (a :: b :: firstn m l).
  apply adjacent_cons. split; [ exact Hab | ].
  apply (IH (S m)). exact H.
Qed.

Lemma adjacent_both (R R' : Q -> Q -> Prop) (l : list Q) :
  adjacent R l -> adjacent R' l -> adjacent (fun x y => R x y /\ R' x y) l.
Proof.
  induction l as [| a [| b l] IH]; intros H H'; try exact I.
  apply adjacent_cons in H, H'. apply adjacent_cons.
  destruct H as [Hab H], H' as [Hab' H'].
  split; [ split; assumption | apply IH; assumption ].
Qed.

(** In a sequence of two entries or more whose neighbours are related
    by a transitive relation, the first entry is related to the last. *)
Lemma adjacent_ends (R : Q -> Q -> Prop) (l : list Q) :
  (forall x y z, R x y -> R y z -> R x z) ->
  forall a z,
    adjacent R l ->
    (2 <= List.length l)%nat ->
    index l 0 = Ok a -> index_last l = Ok z -> R a z.
Proof.
  intros Htrans. unfold index, index_last.
  induction l as [| a0 [| b l] IH]; intros a z Hadj Hlen Ha Hz.
  - discriminate.
  - simpl in Hlen. lia.
  - simpl in Ha. injection Ha as <-.
    apply adjacent_cons in Hadj. destruct Hadj as [Hab Hadj].
    change (last_opt (a0 :: b :: l)) with (last_opt (b :: l)) in Hz.
    destruct l as [| c l].
    + simpl in Hz. injection Hz as <-. exact Hab.
    + apply (Htrans a0 b z Hab).
      apply IH; [ exact Hadj | simpl; lia | reflexivity | exact Hz ].
Qed.

Lemma map_fst_combine_same {A B : Type} (l : list A) :
  forall l' : list B,
    List.length l = List.length l' -> map fst (combine l l') = l.
Proof.
  induction l as [| a l IH]; intros [| b l'] H; try discriminate;
    [ reflexivity | ].
  simpl. rewrite IH; [ reflexivity | ]. simpl in H. lia.
Qed.

Lemma map_snd_combine_same {A B : Type} (l : list A) :
  forall l' : list B,
    List.length l = List.length l' -> map snd (combine l l') = l'.
Proof.
  induction l as [| a l IH]; intros [| b l'] H; try discriminate;
    [ reflexivity | ].
  simpl. rewrite IH; [ reflexivity | ]. simpl in H. lia.
Qed.

Section Slice.

Variable lo : Q.
Variable hi : Q.

(** Past the range, a sorted timeline has no sample in the range. *)
Lemma filter_past_range (tl : list Q) :
  forall cd : list Q,
    adjacent Qle tl ->
    match tl with [] => True | time :: _ => hi < time end ->
    filter (fun sample => in_range lo hi (fst sample)) (combine tl cd) = [].
Proof.
  induction tl as [| a tl IH]; intros cd Hs Hhd; [ reflexivity | ].
  destruct cd as [| c cd]; [ reflexivity | ].
  cbn [combine filter fst].
  assert (E : in_range lo hi a = false).
  { unfold in_range. apply andb_false_iff. right.
    apply not_true_iff_false. intros H. apply Qle_bool_iff in H. lra. }
  rewrite E. apply IH; [ apply adjacent_tail in Hs; exact Hs | ].
  destruct tl as [| b tl]; [ exact I | ].
  apply adjacent_cons in Hs. destruct Hs as [Hab _]. lra.
Qed.

(** From inside the range on, the samples in the range are the first
    ones. *)
Lemma filter_in_range (tl : list Q) :
  forall cd : list Q,
    adjacent Qle tl ->
    match tl with [] => True | time :: _ => lo <= time end ->
    exists m,
      filter (fun sample => in_range lo hi (fst sample)) (combine tl cd)
      = firstn m (combine tl cd).
Proof.
  induction tl as [| a tl IH]; intros cd Hs Hhd; [ exists O; reflexivity | ].
  destruct cd as [| c cd]; [ exists O; reflexivity | ].
  destruct (Qlt_le_dec hi a) as [Hpast | Hin].
  - exists O. apply (filter_past_range (a :: tl) (c :: cd) Hs Hpast).
  - cbn [combine filter fst].
    assert (E : in_range lo hi a = true).
    { unfold in_range. apply andb_true_iff.
      split; apply Qle_bool_iff; assumption. }
    rewrite E.
    destruct (IH cd) as (m & Hm).
    + apply adjacent_tail in Hs. exact Hs.
    + destruct tl as [| b tl]; [ exact I | ].
      apply adjacent_cons in Hs. destruct Hs as [Hab _]. lra.
    + exists (S m). rewrite Hm. reflexivity.
Qed.

(** The samples of a sorted timeline that lie in the range are
    consecutive. *)
Lemma filter_slice (tl : list Q) :
  forall cd : list Q,
    adjacent Qle tl ->
    exists n m,
      filter (fun sample => in_range lo hi (fst sample)) (combine tl cd)
      = firstn m (skipn n (combine tl cd)).
Proof.
  induction tl as [| a tl IH]; intros cd Hs;
    [ exists O, O; reflexivity | ].
  destruct cd as [| c cd]; [ exists O, O; reflexivity | ].
  destruct (Qlt_le_dec a lo) as [Hbefore | Hin].
  - cbn [combine filter fst].
    assert (E : in_range lo hi a = false).
    { unfold in_range. apply andb_false_iff. left.
      apply not_true_iff_false. intros H. apply Qle_bool_iff in H. lra. }
    rewrite E.
    destruct (IH cd) as (n & m & Hnm);
      [ apply adjacent_tail in Hs; exact Hs | ].
    exists (S n), m. exact Hnm.
  - destruct (filter_in_range (a :: tl) (c :: cd) Hs Hin) as (m & Hm).
    exists O, m. exact Hm.
Qed.

End Slice.

(** With a sorted timeline, the window that [format] leaves is a run of
    consecutive readings. *)
Lemma format_window_slice (d : Data) (timestamp_now : Q)
    (compress' relative' : option bool) (min_max_history : Q * Q)
    (self self' : BatteryStat) :
  prepared d ->
  adjacent Qle (timeline_local d (compress self')) ->
  format d timestamp_now compress' relative' min_max_history self = Ok self' ->
  exists n m,
    self_timeline self'
    = firstn m (skipn n (timeline_local d (compress self')))
    /\ self_charge_data self' = firstn m (skipn n (charge_data d)).
Proof.
  intros Hd Hs H.
  destruct (prepared_columns d Hd) as (Hlen & _).
  assert (Hlocal : List.length (timeline_local d (compress self'))
                   = List.length (charge_data d)).
  { unfold timeline_local. destruct (compress self').
    - rewrite timeline_zipped_length. lia.
    - rewrite length_map. lia. }
  apply format_Ok in H.
  destruct H as (now & new_data & _ & _ & _ & Hnew & -> & ->).
  apply new_data_from_filter in Hnew. simpl skipn in Hnew.
  destruct (filter_slice (fst (plot_range self')) (snd (plot_range self'))
              _ (charge_data d) Hs) as (n & m & Hnm).
  exists n, m. rewrite Hnew, Hnm.
  rewrite <- !firstn_map, <- !skipn_map.
  rewrite map_fst_combine_same, map_snd_combine_same by exact Hlocal.
  split; reflexivity.
Qed.

(** A positive threshold keeps strictly increasing timestamps strictly
    increasing. *)
Lemma timeline_local_strict (d : Data) (compressed : bool) :
  adjacent Qlt (map inject_Z (timeline d)) ->
  adjacent Qlt (timeline_local d compressed).
Proof.
  intros Hs. unfold timeline_local.
  destruct compressed; [ | exact Hs ].
  unfold timeline_zipped.
  apply (adjacent_weaken (fun x y => 0 < y - x)); [ intros x y H; lra | ].
  apply adjacent_gaps.
  apply (Forall2_Forall (capped MAX_GAP) (fun g => 0 < g)
           (gaps (map inject_Z (timeline d)))).
  - intros g g' Hc Hg. unfold capped, capped_gap in Hc.
    destruct (Qlt_bool MAX_GAP g); rewrite Hc;
      [ reflexivity | assumption ].
  - apply zip_timeline_capped.
  - apply adjacent_gaps.
    apply (adjacent_weaken Qlt); [ intros x y H; lra | exact Hs ].
Qed.

(** The first and the last sample of a window that passes the test of
    line 283. *)
Lemma window_ends (d : Data) (timestamp_now : Q)
    (compress' relative' : option bool) (min_max_history : Q * Q)
    (self self' : BatteryStat) :
  format d timestamp_now compress' relative' min_max_history self = Ok self' ->
  no_trend_guard self' = false ->
  exists t_first t_last c_first c_last,
    index (self_timeline self') 0 = Ok t_first
    /\ index_last (self_timeline self') = Ok t_last
    /\ index (self_charge_data self') 0 = Ok c_first
    /\ index_last (self_charge_data self') = Ok c_last.
Proof.
  intros H Hg. apply format_window in H.
  apply no_trend_guard_false in Hg. destruct Hg as [Hlen _].
  assert (Ht : self_timeline self' <> [])
    by (intros E; rewrite E in Hlen; simpl in Hlen; lia).
  assert (Hc : self_charge_data self' <> [])
    by (intros E; rewrite E in H; simpl in H; lia).
  destruct (index_0_cons _ Ht) as (t_first & Htf).
  destruct (index_last_cons _ Ht) as (t_last & Htl).
  destruct (index_0_cons _ Hc) as (c_first & Hcf).
  destruct (index_last_cons _ Hc) as (c_last & Hcl).
  exists t_first, t_last, c_first, c_last.
  repeat split; assumption.
Qed.

(** On a window that [format] leaves, [graph] returns or raises
    [ZeroDivisionError]. *)
Lemma graph_outcome (d : Data) (timestamp_now : Q)
    (compress' relative' : option bool) (min_max_history : Q * Q)
    (self self' : BatteryStat) :
  prepared d ->
  format d timestamp_now compress' relative' min_max_history self = Ok self' ->
  (exists r, graph d self' = Ok r) \/ graph d self' = Err ZeroDivisionError.
Proof.
  intros (Hsheet & _) H. unfold graph, analyze.
  destruct (no_trend_guard self') eqn:Eg; [ left; eauto | ].
  destruct (window_ends _ _ _ _ _ _ _ H Eg)
    as (t_first & t_last & c_first & c_last & Htf & Htl & Hcf & Hcl).
  destruct (statistics_raises d self' t_first t_last c_first c_last
              Hsheet Htf Htl Hcf Hcl) as [Hzero Hfine].
  destruct (Qeq_dec t_last t_first) as [Ht | Ht];
    [ | destruct (Qeq_dec c_last c_first) as [Hc | Hc] ].
  - right. rewrite (Hzero (or_introl Ht)). reflexivity.
  - right. rewrite (Hzero (or_intror Hc)). reflexivity.
  - left. destruct (Hfine Ht Hc) as (s & ->). cbn [bind]. eauto.
Qed.

(** On readings that change, [graph] returns on every window that
    [format] leaves. *)
Lemma graph_changing (d : Data) (timestamp_now : Q)
    (compress' relative' : option bool) (min_max_history : Q * Q)
    (self self' : BatteryStat) :
  prepared d ->
  changing d ->
  format d timestamp_now compress' relative' min_max_history self = Ok self' ->
  exists r, graph d self' = Ok r.
Proof.
  intros Hd (Htimes & Hcharges) H. unfold graph, analyze.
  destruct (no_trend_guard self') eqn:Eg; [ eauto | ].
  destruct (window_ends _ _ _ _ _ _ _ H Eg)
    as (t_first & t_last & c_first & c_last & Htf & Htl & Hcf & Hcl).
  pose proof (format_window _ _ _ _ _ _ _ H) as Hsame.
  pose proof (timeline_local_strict d (compress self') Htimes) as Hstrict.
  destruct (format_window_slice d _ _ _ _ _ _ Hd
              (adjacent_weaken Qlt Qle _ Qlt_le_weak Hstrict) H)
    as (n & m & Etl & Ecd).
  apply no_trend_guard_false in Eg. destruct Eg as [Hlen Hmono].
  assert (Ht : t_first < t_last).
  { apply (adjacent_ends Qlt (self_timeline self') Qlt_trans);
      [ | lia | exact Htf | exact Htl ].
    rewrite Etl. apply adjacent_firstn, adjacent_skipn. exact Hstrict. }
  assert (Hdiff : adjacent (fun x y => ~ x == y) (self_charge_data self')).
  { rewrite Ecd. apply adjacent_firstn, adjacent_skipn. exact Hcharges. }
  assert (Hc : ~ c_last == c_first).
  { destruct Hmono as [Hup | Hdown].
    - assert (c_first < c_last); [ | lra ].
      apply (adjacent_ends Qlt (self_charge_data self') Qlt_trans);
        [ | lia | exact Hcf | exact Hcl ].
      apply (adjacent_weaken (fun x y => x <= y /\ ~ x == y));
        [ | apply adjacent_both; assumption ].
      intros x y [Hle Hne]. apply Qle_lt_or_eq in Hle.
      destruct Hle; [ assumption | contradiction ].
    - assert (c_last < c_first); [ | lra ].
      apply (adjacent_ends (fun x y => y < x) (self_charge_data self'));
        [ intros x y z Hxy Hyz; lra | | lia | exact Hcf | exact Hcl ].
      apply (adjacent_weaken (fun x y => y <= x /\ ~ x == y));
        [ | apply adjacent_both; assumption ].
      intros x y [Hle Hne]. apply Qle_lt_or_eq in Hle.
      destruct Hle as [Hlt | Heq]; [ assumption | ].
      exfalso. apply Hne. symmetry. exact Heq. }
  destruct Hd as (Hsheet & _).
  destruct (statistics_raises d self' t_first t_last c_first c_last
              Hsheet Htf Htl Hcf Hcl) as [_ Hfine].
  destruct (Hfine ltac:(lra) Hc) as (s & ->). cbn [bind]. eauto.
Qed.

(* ================================================================== *)
(** * Properties of [update] and [reset] *)

(** With the bounds in order [update] does not set the slider, and the
    [fuel] left plays no part. *)
Lemma update_in_order_step (d : Data) (clock : nat -> Q) (fuel : nat)
    (value : pyval) (w : World) :
  Qle_bool (- slider_history_max w) (- slider_history_min w) = false ->
  update d clock (S fuel) value w
  = bind (format d (clock (formats w))
                 (fst (options_of value)) (snd (options_of value))
                 (- slider_history_min w, - slider_history_max w) (stat w))
         (fun self =>
            bind (graph d self)
                 (fun _ =>
                    Ok (mkWorld (slider_history_max w) (slider_history_min w)
                                self (S (formats w))))).
Proof. intros Horder. cbn [update]. rewrite Horder. reflexivity. Qed.

(** Setting the slider runs [update] once more and no deeper: two levels
    of [fuel] give the result that any larger amount gives. *)
Lemma update_fuel (d : Data) (clock : nat -> Q) (fuel : nat)
    (value : pyval) (w : World) :
  update d clock (S (S fuel)) value w = update d clock 2 value w.
Proof.
  destruct (Qle_bool (- slider_history_max w) (- slider_history_min w))
    eqn:Horder.
  - remember (S fuel) as fuel1 eqn:E1. remember 1%nat as one eqn:E2.
    cbn [update]. rewrite Horder. subst fuel1 one.
    rewrite !update_in_order_step; [ reflexivity | | ];
      apply not_true_iff_false; intros H; apply Qle_bool_iff in H;
      simpl in H; lra.
  - rewrite !update_in_order_step by exact Horder. reflexivity.
Qed.

(** [update], one level at a time: with the bounds out of order the
    slider is set, [update] runs for the slider and draws, and then
    [format] and [graph] run again for the event itself. *)
Lemma update_steps (d : Data) (clock : nat -> Q) (fuel : nat)
    (value : pyval) (w : World) :
  update d clock (S (S fuel)) value w
  = if Qle_bool (- slider_history_max w) (- slider_history_min w) then
      bind (format d (clock (formats w)) None None
                   (- slider_history_min w, - slider_history_min w + 0.1)
                   (stat w))
           (fun self1 =>
              bind (graph d self1)
                   (fun _ =>
                      bind (format d (clock (S (formats w)))
                                   (fst (options_of value))
                                   (snd (options_of value))
                                   (- slider_history_min w,
                                    - slider_history_min w + 0.1) self1)
                           (fun self2 =>
                              bind (graph d self2)
                                   (fun _ =>
                                      Ok (mkWorld
                                            (- (- slider_history_min w + 0.1))
                                            (slider_history_min w) self2
                                            (S (S (formats w))))))))
    else
      bind (format d (clock (formats w))
                   (fst (options_of value)) (snd (options_of value))
                   (- slider_history_min w, - slider_history_max w) (stat w))
           (fun self =>
              bind (graph d self)
                   (fun _ =>
                      Ok (mkWorld (slider_history_max w)
                                  (slider_history_min w) self
                                  (S (formats w))))).
Proof.
  destruct (Qle_bool (- slider_history_max w) (- slider_history_min w))
    eqn:Horder.
  - remember (S fuel) as fuel1 eqn:E1.
    cbn [update]. rewrite Horder. subst fuel1.
    rewrite update_in_order_step.
    + cbn [slider_history_max slider_history_min stat formats options_of
           is_str fst snd].
      rewrite Qopp_opp.
      destruct (format d (clock (formats w)) None None
                       (- slider_history_min w, - slider_history_min w + 0.1)
                       (stat w)) as [self1 | e]; [ | reflexivity ].
      cbn [bind]. destruct (graph d self1); reflexivity.
    + apply not_true_iff_false. intros H. apply Qle_bool_iff in H.
      simpl in H. lra.
  - apply update_in_order_step. exact Horder.
Qed.

(** What [update] leaves when it returns, and what it raises when it
    does not. *)
Lemma update_outcome (d : Data) (clock : nat -> Q) (fuel : nat)
    (value : pyval) (w : World) :
  prepared d ->
  match update d clock (S (S fuel)) value w with
  | Err e => e = ZeroDivisionError
  | Ok w' =>
      slider_history_min w' = slider_history_min w
      /\ slider_history_max w'
         = (if Qle_bool (- slider_history_max w) (- slider_history_min w)
            then - (- slider_history_min w + 0.1)
            else slider_history_max w)
      /\ compress (stat w')
         = resolved (fst (options_of value)) (compress (stat w))
      /\ relative (stat w')
         = resolved (snd (options_of value)) (relative (stat w))
      /\ (exists now,
             plot_range (stat w')
             = (now - hours_in_seconds (- slider_history_max w'),
                now - hours_in_seconds (- slider_history_min w')))
      /\ (exists r, graph d (stat w') = Ok r)
  end.
Proof.
  intros Hd. rewrite update_steps.
  destruct (Qle_bool (- slider_history_max w) (- slider_history_min w)).
  - destruct (format_total d Hd (clock (formats w)) None None
                (- slider_history_min w, - slider_history_min w + 0.1)
                (stat w)) as (self1 & now1 & E1 & _).
    rewrite E1. cbn [bind].
    destruct (graph_outcome d _ _ _ _ _ _ Hd E1) as [(r1 & G1) | G1];
      rewrite G1; cbn [bind]; [ | reflexivity ].
    destruct (format_total d Hd (clock (S (formats w)))
                (fst (options_of value)) (snd (options_of value))
                (- slider_history_min w, - slider_history_min w + 0.1)
                self1) as (self2 & now2 & E2 & _ & _ & Hrange).
    rewrite E2. cbn [bind].
    destruct (graph_outcome d _ _ _ _ _ _ Hd E2) as [(r2 & G2) | G2];
      rewrite G2; cbn [bind]; [ | reflexivity ].
    apply format_flags in E1, E2. destruct E1 as [C1 R1], E2 as [C2 R2].
    cbn [slider_history_min slider_history_max stat].
    simpl resolved in C1, R1. rewrite C2, R2, C1, R1, Qopp_opp.
    repeat split; try reflexivity; [ exists now2; exact Hrange | eauto ].
  - destruct (format_total d Hd (clock (formats w))
                (fst (options_of value)) (snd (options_of value))
                (- slider_history_min w, - slider_history_max w) (stat w))
      as (self' & now & E & _ & _ & Hrange).
    rewrite E. cbn [bind].
    destruct (graph_outcome d _ _ _ _ _ _ Hd E) as [(r & G) | G];
      rewrite G; cbn [bind]; [ | reflexivity ].
    apply format_flags in E. destruct E as [C R].
    cbn [slider_history_min slider_history_max stat].
    repeat split; try assumption; try reflexivity;
      [ exists now; exact Hrange | eauto ].
Qed.

(** On readings that change [update] returns. *)
Lemma update_returns (d : Data) (clock : nat -> Q) (fuel : nat)
    (value : pyval) (w : World) :
  prepared d ->
  changing d ->
  exists w', update d clock (S (S fuel)) value w = Ok w'.
Proof.
  intros Hd Hch. rewrite update_steps.
  destruct (Qle_bool (- slider_history_max w) (- slider_history_min w)).
  - destruct (format_total d Hd (clock (formats w)) None None
                (- slider_history_min w, - slider_history_min w + 0.1)
                (stat w)) as (self1 & now1 & E1 & _).
    rewrite E1. cbn [bind].
    destruct (graph_changing d _ _ _ _ _ _ Hd Hch E1) as (r1 & ->).
    cbn [bind].
    destruct (format_total d Hd (clock (S (formats w)))
                (fst (options_of value)) (snd (options_of value))
                (- slider_history_min w, - slider_history_min w + 0.1)
                self1) as (self2 & now2 & E2 & _).
    rewrite E2. cbn [bind].
    destruct (graph_changing d _ _ _ _ _ _ Hd Hch E2) as (r2 & ->).
    cbn [bind]. eauto.
  - destruct (format_total d Hd (clock (formats w))
                (fst (options_of value)) (snd (options_of value))
                (- slider_history_min w, - slider_history_max w) (stat w))
      as (self' & now & E & _).
    rewrite E. cbn [bind].
    destruct (graph_changing d _ _ _ _ _ _ Hd Hch E) as (r & ->).
    cbn [bind]. eauto.
Qed.

Lemma sample_data_changing : changing sample_data.
Proof.
  split; simpl; repeat split; try reflexivity;
    intros H; vm_compute in H; discriminate H.
Qed.





(** X21: when [update] returns, it leaves the sliders in order, whatever
    they held: the near bound is below the far bound, so the next event
    finds nothing to correct.  When it does not return, it raises the
    [ZeroDivisionError] of the analysis. *)
Theorem update_orders_sliders (d : Data) (clock : nat -> Q) (fuel : nat)
    (value : pyval) (w : World) :
  prepared d ->
  match update d clock (S (S fuel)) value w with
  | Err e => e = ZeroDivisionError
  | Ok w' =>
      - slider_history_min w' < - slider_history_max w'
      /\ Qle_bool (- slider_history_max w') (- slider_history_min w') = false
  end.
Proof.
  intros Hd.
  pose proof (update_outcome d clock fuel value w Hd) as H.
  destruct (update d clock (S (S fuel)) value w) as [w' | e]; [ | exact H ].
  destruct H as (Hmin & Hmax & _).
  assert (Hlt : - slider_history_min w' < - slider_history_max w').
  { rewrite Hmin, Hmax.
    destruct (Qle_bool (- slider_history_max w) (- slider_history_min w))
      eqn:Horder.
    - lra.
    - apply Qnot_le_lt. intros H. apply Qle_bool_iff in H. congruence. }
  split; [ exact Hlt | ].
  apply not_true_iff_false. intros H. apply Qle_bool_iff in H. lra.
Qed.

Lemma update_orders_sliders_witness :
  exists w',
    update sample_data (fun _ => 1600010000) 2 (PFloat (-5))
           (mkWorld (-3) (-5) initial_stat 0) = Ok w'
    /\ - slider_history_min w' < - slider_history_max w'
    /\ Qle_bool (- slider_history_max w') (- slider_history_min w') = false.
Proof.
  assert (E : exists w',
             update sample_data (fun _ => 1600010000) 2 (PFloat (-5))
                    (mkWorld (-3) (-5) initial_stat 0) = Ok w')
    by (vm_compute; eexists; reflexivity).
  destruct E as (w' & E).
  pose proof (update_orders_sliders sample_data (fun _ => 1600010000) 0
                (PFloat (-5)) (mkWorld (-3) (-5) initial_stat 0)
                sample_data_prepared) as H.
  rewrite E in H. exists w'. split; [ exact E | exact H ].
Defined.

(** X22: when [update] returns, the switch has set the view: for the
    label Compressed both flags are set, for Relative only [relative], for
    Absolute neither; for a slider both flags are as they were.  When it
    does not return, it raises the [ZeroDivisionError] of the analysis. *)
Theorem update_sets_view (d : Data) (clock : nat -> Q) (fuel : nat)
    (value : pyval) (w : World) :
  prepared d ->
  match update d clock (S (S fuel)) value w with
  | Err e => e = ZeroDivisionError
  | Ok w' =>
      (value = PStr "Compressed" ->
       compress (stat w') = true /\ relative (stat w') = true)
      /\ (value = PStr "Relative" ->
          compress (stat w') = false /\ relative (stat w') = true)
      /\ (value = PStr "Absolute" ->
          compress (stat w') = false /\ relative (stat w') = false)
      /\ (forall x, value = PFloat x ->
          compress (stat w') = compress (stat w)
          /\ relative (stat w') = relative (stat w))
  end.
Proof.
  intros Hd.
  pose proof (update_outcome d clock fuel value w Hd) as H.
  destruct (update d clock (S (S fuel)) value w) as [w' | e]; [ | exact H ].
  destruct H as (_ & _ & Hc & Hr & _).
  rewrite Hc, Hr.
  repeat split; intros; subst value; reflexivity.
Qed.

Lemma update_sets_view_witness :
  exists w',
    update sample_data (fun _ => 1600010000) 2 (PStr "Absolute")
           (mkWorld (-12) 0 initial_stat 0) = Ok w'
    /\ compress (stat w') = false /\ relative (stat w') = false.
Proof.
  assert (E : exists w',
             update sample_data (fun _ => 1600010000) 2 (PStr "Absolute")
                    (mkWorld (-12) 0 initial_stat 0) = Ok w')
    by (vm_compute; eexists; reflexivity).
  destruct E as (w' & E).
  pose proof (update_sets_view sample_data (fun _ => 1600010000) 0
                (PStr "Absolute") (mkWorld (-12) 0 initial_stat 0)
                sample_data_prepared) as H.
  rewrite E in H. destruct H as (_ & _ & H & _).
  exists w'. split; [ exact E | ]. apply H. reflexivity.
Defined.

(** X24: in compressed mode [update] is idempotent: a slider event that
    follows an [update] finds the bounds in order, moves no slider, and
    leaves the view that the first [update] left. *)
Theorem update_idempotent (d : Data) (clock clock' : nat -> Q)
    (fuel fuel' : nat) (value : pyval) (x : Q) (w w' : World) :
  update d clock (S (S fuel)) value w = Ok w' ->
  compress (stat w') = true ->
  update d clock' (S (S fuel')) (PFloat x) w'
  = Ok (mkWorld (slider_history_max w') (slider_history_min w') (stat w')
                (S (formats w'))).
Proof.
  intros H Hc. rewrite update_steps in H.
  assert (Hagain :
    Qle_bool (- slider_history_max w') (- slider_history_min w') = false
    /\ format d (clock' (formats w')) None None
              (- slider_history_min w', - slider_history_max w') (stat w')
       = Ok (stat w')
    /\ exists r, graph d (stat w') = Ok r).
  { destruct (Qle_bool (- slider_history_max w) (- slider_history_min w))
      eqn:Horder.
    - apply bind_Ok in H. destruct H as (self1 & _ & H).
      apply bind_Ok in H. destruct H as (r1 & _ & H).
      apply bind_Ok in H. destruct H as (self2 & E2 & H).
      apply bind_Ok in H. destruct H as (r2 & G2 & H).
      injection H as <-.
      cbn [slider_history_max slider_history_min stat formats] in *.
      rewrite Qopp_opp. split; [ | split; [ | eauto ] ].
      + apply not_true_iff_false. intros H. apply Qle_bool_iff in H. lra.
      + eapply format_repeats; [ exact E2 | left; exact Hc ].
    - apply bind_Ok in H. destruct H as (self' & E & H).
      apply bind_Ok in H. destruct H as (r & G & H).
      injection H as <-.
      cbn [slider_history_max slider_history_min stat formats] in *.
      split; [ exact Horder | split; [ | eauto ] ].
      eapply format_repeats; [ exact E | left; exact Hc ]. }
  destruct Hagain as (Horder & Hformat & r & Hgraph).
  rewrite update_steps, Horder.
  change (options_of (PFloat x)) with (@None bool, @None bool).
  cbn [fst snd]. rewrite Hformat. cbn [bind]. rewrite Hgraph. reflexivity.
Qed.

Lemma update_idempotent_witness :
  exists w',
    update sample_data (fun _ => 1600010000) 2 (PStr "Compressed")
           (mkWorld (-3) (-5) initial_stat 0) = Ok w'
    /\ update sample_data (fun _ => 1600020000) 2 (PFloat (-5)) w'
       = Ok (mkWorld (slider_history_max w') (slider_history_min w')
                     (stat w') (S (formats w'))).
Proof.
  assert (E : exists w',
             update sample_data (fun _ => 1600010000) 2 (PStr "Compressed")
                    (mkWorld (-3) (-5) initial_stat 0) = Ok w'
             /\ compress (stat w') = true)
    by (vm_compute; eexists; split; reflexivity).
  destruct E as (w' & E & Hc). exists w'. split; [ exact E | ].
  exact (update_idempotent sample_data (fun _ => 1600010000)
           (fun _ => 1600020000) 0 0 (PStr "Compressed") (-5)
           (mkWorld (-3) (-5) initial_stat 0) w' E Hc).
Defined.

(** X25: when [reset] returns, the near slider is back at 0.  The far
    slider is back at -12 when the near bound stood below 12 hours; but
    when the near bound stood at 12 hours or more, resetting the far slider
    first makes [update] correct it, and it ends at the old near bound
    plus 0.1 hours, not at its initial value.  [reset] returns on readings
    that change, and raises nothing but the [ZeroDivisionError] of the
    analysis that [update] runs. *)
Theorem reset_sliders (d : Data) (clock : nat -> Q) (fuel : nat) (w : World) :
  prepared d ->
  (changing d -> exists w', reset d clock (S (S fuel)) w = Ok w')
  /\ match reset d clock (S (S fuel)) w with
     | Err e => e = ZeroDivisionError
     | Ok w' =>
         slider_history_min w' == DEFAULT_HISTORY_MIN
         /\ (- slider_history_min w < DEFAULT_HISTORY_MAX ->
             slider_history_max w' == - DEFAULT_HISTORY_MAX)
         /\ (DEFAULT_HISTORY_MAX <= - slider_history_min w ->
             ~ slider_history_max w == - DEFAULT_HISTORY_MAX ->
             slider_history_max w' == - (- slider_history_min w + 0.1))
     end.
Proof.
  intros Hd. split.
  { intros Hch. unfold reset, reset_history_max, reset_history_min.
    destruct (Qeq_bool (slider_history_max w) (- DEFAULT_HISTORY_MAX)).
    - cbn [bind].
      destruct (Qeq_bool (slider_history_min w) DEFAULT_HISTORY_MIN);
        [ eauto | apply update_returns; assumption ].
    - destruct (update_returns d clock fuel (PFloat (- DEFAULT_HISTORY_MAX))
                  (mkWorld (- DEFAULT_HISTORY_MAX) (slider_history_min w)
                           (stat w) (formats w)) Hd Hch) as (wA & ->).
      cbn [bind].
      destruct (Qeq_bool (slider_history_min wA) DEFAULT_HISTORY_MIN);
        [ eauto | apply update_returns; assumption ]. }
  unfold reset, reset_history_max.
  destruct (Qeq_bool (slider_history_max w) (- DEFAULT_HISTORY_MAX)) eqn:Emax.
  - apply Qeq_bool_iff in Emax. cbn [bind]. unfold reset_history_min.
    destruct (Qeq_bool (slider_history_min w) DEFAULT_HISTORY_MIN) eqn:Emin.
    + apply Qeq_bool_iff in Emin.
      split; [ exact Emin | ].
      split; [ intros _; exact Emax | intros _ H; contradiction ].
    + pose proof (update_outcome d clock fuel (PFloat DEFAULT_HISTORY_MIN)
                    (mkWorld (slider_history_max w) DEFAULT_HISTORY_MIN
                             (stat w) (formats w)) Hd) as H.
      destruct (update d clock (S (S fuel)) (PFloat DEFAULT_HISTORY_MIN)
                  (mkWorld (slider_history_max w) DEFAULT_HISTORY_MIN
                           (stat w) (formats w))) as [w' | e];
        [ | exact H ].
      destruct H as (Hmin & Hmax & _).
      cbn [slider_history_max slider_history_min] in Hmin, Hmax.
      rewrite Hmin, Hmax.
      split; [ reflexivity | ].
      replace (Qle_bool (- slider_history_max w) (- DEFAULT_HISTORY_MIN))
        with false.
      * split; [ intros _; exact Emax | intros _ H; contradiction ].
      * symmetry. apply not_true_iff_false. intros H.
        apply Qle_bool_iff in H.
        unfold DEFAULT_HISTORY_MIN, DEFAULT_HISTORY_MAX in *. lra.
  - assert (Hmax0 : ~ slider_history_max w == - DEFAULT_HISTORY_MAX).
    { intros H. apply Qeq_bool_iff in H. congruence. }
    pose proof (update_outcome d clock fuel (PFloat (- DEFAULT_HISTORY_MAX))
                  (mkWorld (- DEFAULT_HISTORY_MAX) (slider_history_min w)
                           (stat w) (formats w)) Hd) as HA.
    destruct (update d clock (S (S fuel)) (PFloat (- DEFAULT_HISTORY_MAX))
                (mkWorld (- DEFAULT_HISTORY_MAX) (slider_history_min w)
                         (stat w) (formats w))) as [wA | e];
      [ | cbn [bind]; exact HA ].
    destruct HA as (HminA & HmaxA & _).
    cbn [slider_history_max slider_history_min] in HminA, HmaxA.
    cbn [bind]. unfold reset_history_min.
    assert (HA : (- slider_history_min w < DEFAULT_HISTORY_MAX ->
                  slider_history_max wA == - DEFAULT_HISTORY_MAX)
                 /\ (DEFAULT_HISTORY_MAX <= - slider_history_min w ->
                     slider_history_max wA
                     == - (- slider_history_min w + 0.1))).
    { rewrite HmaxA.
      destruct (Qle_bool (- - DEFAULT_HISTORY_MAX) (- slider_history_min w))
        eqn:Horder.
      - apply Qle_bool_iff in Horder.
        unfold DEFAULT_HISTORY_MAX in *. split; intros H; [ lra | reflexivity ].
      - assert (~ - - DEFAULT_HISTORY_MAX <= - slider_history_min w).
        { intros H. apply Qle_bool_iff in H. congruence. }
        unfold DEFAULT_HISTORY_MAX in *.
        split; intros H'; [ reflexivity | lra ]. }
    destruct HA as [HA1 HA2].
    destruct (Qeq_bool (slider_history_min wA) DEFAULT_HISTORY_MIN) eqn:Emin.
    + apply Qeq_bool_iff in Emin.
      split; [ exact Emin | ].
      split; [ exact HA1 | intros H _; apply HA2; exact H ].
    + pose proof (update_outcome d clock fuel (PFloat DEFAULT_HISTORY_MIN)
                    (mkWorld (slider_history_max wA) DEFAULT_HISTORY_MIN
                             (stat wA) (formats wA)) Hd) as H.
      destruct (update d clock (S (S fuel)) (PFloat DEFAULT_HISTORY_MIN)
                  (mkWorld (slider_history_max wA) DEFAULT_HISTORY_MIN
                           (stat wA) (formats wA))) as [w' | e];
        [ | exact H ].
      destruct H as (Hmin & Hmax & _).
      cbn [slider_history_max slider_history_min] in Hmin, Hmax.
      rewrite Hmin, Hmax.
      split; [ reflexivity | ].
      replace (Qle_bool (- slider_history_max wA) (- DEFAULT_HISTORY_MIN))
        with false.
      * split; [ exact HA1 | intros H _; apply HA2; exact H ].
      * symmetry. apply not_true_iff_false. intros H.
        apply Qle_bool_iff in H.
        destruct (Qlt_le_dec (- slider_history_min w) DEFAULT_HISTORY_MAX)
          as [Hlt | Hge].
        -- apply HA1 in Hlt.
           unfold DEFAULT_HISTORY_MIN, DEFAULT_HISTORY_MAX in *. lra.
        -- pose proof (HA2 Hge) as HA.
           unfold DEFAULT_HISTORY_MIN, DEFAULT_HISTORY_MAX in *. lra.
Qed.

Lemma reset_sliders_witness :
  exists w',
    reset sample_data (fun _ => 1600010000) 2
          (mkWorld (-30) (-20) initial_stat 0) = Ok w'
    /\ slider_history_min w' == DEFAULT_HISTORY_MIN
    /\ slider_history_max w' == - (- (-20) + 0.1).
Proof.
  destruct (reset_sliders sample_data (fun _ => 1600010000) 0
              (mkWorld (-30) (-20) initial_stat 0) sample_data_prepared)
    as [Hreturns Hresult].
  destruct (Hreturns sample_data_changing) as (w' & E).
  rewrite E in Hresult. destruct Hresult as (Hmin & _ & Hmax).
  exists w'. split; [ exact E | ]. split; [ exact Hmin | ].
  apply Hmax.
  - vm_compute. discriminate.
  - intros H. vm_compute in H. discriminate H.
Defined.

(* ================================================================== *)
(** * Further properties of the first view and of the rows *)

(** X26: on prepared data the object starts in the compressed, relative
    view, with the plot range from 12 hours before the last raw timestamp
    up to it, and with a window that ends with the most recent sample. *)
Theorem init_view (d : Data) (timestamp_now : Q) :
  prepared d ->
  exists self t,
    init d timestamp_now = Ok self
    /\ compress self = true
    /\ relative self = true
    /\ last_opt (timeline d) = Some t
    /\ plot_range self
       = (inject_Z t - hours_in_seconds DEFAULT_HISTORY_MAX,
          inject_Z t - hours_in_seconds DEFAULT_HISTORY_MIN)
    /\ last_opt (self_timeline self) = Some (inject_Z t)
    /\ last_opt (self_charge_data self) = Some (current_charge d).
Proof.
  intros Hd. unfold init.
  destruct (format_total d Hd timestamp_now None None
              (DEFAULT_HISTORY_MIN, DEFAULT_HISTORY_MAX) initial_stat)
    as (self & now & E & Hc & Hr & _).
  simpl in Hc, Hr.
  destruct (format_latest d timestamp_now None None
              (DEFAULT_HISTORY_MIN, DEFAULT_HISTORY_MAX) initial_stat self
              Hd E Hc) as (t & Ht & Hlast & Hcharge);
    [ vm_compute; discriminate | vm_compute; discriminate | ].
  exists self, t. split; [ exact E | ].
  repeat (split; [ assumption | ]).
  split; [ | split; assumption ].
  apply format_Ok in E.
  destruct E as (now' & _ & Hnow & _ & Hrange & _).
  rewrite Hc in Hnow. unfold index_last in Hnow.
  rewrite timeline_zipped_last, Ht in Hnow. injection Hnow as <-.
  exact Hrange.
Qed.

Lemma init_view_witness :
  exists self t,
    init sample_data 0 = Ok self
    /\ compress self = true
    /\ relative self = true
    /\ last_opt (timeline sample_data) = Some t
    /\ plot_range self
       = (inject_Z t - hours_in_seconds DEFAULT_HISTORY_MAX,
          inject_Z t - hours_in_seconds DEFAULT_HISTORY_MIN)
    /\ last_opt (self_timeline self) = Some (inject_Z t)
    /\ last_opt (self_charge_data self)
       = Some (current_charge sample_data).
Proof. exact (init_view sample_data 0 sample_data_prepared). Defined.

(** X27: setting the slider inside [update] runs [update] once more and
    no deeper: a depth of two calls gives the result that any larger
    depth gives, whatever the data and the sliders. *)
Theorem update_reenters_once (d : Data) (clock : nat -> Q) (fuel : nat)
    (value : pyval) (w : World) :
  update d clock (S (S fuel)) value w = update d clock 2 value w.
Proof. apply update_fuel. Qed.

(** X28: with rows that hold a time and a charge and nothing after them,
    which is how lines 72-77 build every row, the last entry of the last
    row is a charge and not a status, and the statistics that [analyze]
    shows never include a remaining time. *)
Theorem analyze_without_status (d : Data) (self : BatteryStat)
    (s : Statistics) :
  Forall (fun line => rest line = []) (data_sheet d) ->
  analyze d self = Ok (Trend s) ->
  left s = None.
Proof. apply no_remaining_without_status. Qed.

Lemma analyze_without_status_witness :
  exists s,
    analyze (mkData [mkRow 7200 30 []] [7200]%Z [30] 30)
            (mkStat true true (0, 0) [0; 3600; 7200] [10; 20; 30])
    = Ok (Trend s)
    /\ left s = None.
Proof.
  assert (E : exists s,
             analyze (mkData [mkRow 7200 30 []] [7200]%Z [30] 30)
                     (mkStat true true (0, 0) [0; 3600; 7200] [10; 20; 30])
             = Ok (Trend s))
    by (vm_compute; eexists; reflexivity).
  destruct E as (s & E). exists s. split; [ exact E | ].
  apply (analyze_without_status
           (mkData [mkRow 7200 30 []] [7200]%Z [30] 30)
           (mkStat true true (0, 0) [0; 3600; 7200] [10; 20; 30]) s).
  - repeat constructor.
  - exact E.
Defined.
